(** * pycaps: the Whisper transcriber

    A shallow embedding of [WhisperAudioTranscriber]
    (src/pycaps/transcriber/whisper_audio_transcriber.py) and the properties of
    the caption document it builds from the engine's raw result.

    Python values are embedded as a small universe of JSON-like objects,
    Python floats as the kernel's binary64 numbers, Python exceptions as an
    error outcome, and the engine (the [whisper] module and its models) as
    parameters of a section. *)

From Stdlib Require Import List String Ascii Bool ZArith Lia.
From Stdlib Require Import Floats.
Import ListNotations.
Local Open Scope string_scope.
Local Open Scope list_scope.

Set Warnings "-register-all,-inexact-float".

(** ** Python values *)

(** The objects a raw transcription result is made of.  A [str] is a
    sequence of code points; the model covers the code points below 256, one
    per [ascii].  A [dict] keeps its insertion order and is looked up by the
    first binding of a key. *)
Inductive pyval : Type :=
| PNone
| PBool (b : bool)
| PInt (z : Z)
| PFloat (f : float)
| PStr (s : string)
| PList (l : list pyval)
| PDict (d : list (string * pyval)).

(** The contents of a [dict]. *)
Definition dict : Type := list (string * pyval).

(** ** Exceptions *)

(** What the [whisper] package raises: an [Exception], with its message
    [str(e)], or an exception that is not an [Exception]
    ([KeyboardInterrupt], [SystemExit]). *)
Inductive engine_exn : Type :=
| EngineException (msg : string)
| EngineInterrupt.

(** What [transcribe] raises: the errors of the builtins on the raw result,
    the [RuntimeError] of [_get_model], and what comes from the engine. *)
Inductive exn : Type :=
| KeyError (key : string)
| TypeError
| ValueError
| OverflowError
| RuntimeError (msg : string)
| FromEngine (e : engine_exn).

(** A computation returns or raises. *)
Inductive outcome (A : Type) : Type :=
| Ok (a : A)
| Raise (e : exn).

Arguments Ok {A} a.
Arguments Raise {A} e.

Definition bind {A B : Type} (m : outcome A) (k : A -> outcome B) : outcome B :=
  match m with
  | Ok a => k a
  | Raise e => Raise e
  end.

Notation "x <- m ;; k" := (bind m (fun x => k))
  (at level 61, m at next level, right associativity).

(** ** Builtins on values *)

(** The value bound to [key] in a dict, if any. *)
Fixpoint dict_get (key : string) (d : dict) : option pyval :=
  match d with
  | [] => None
  | (k, v) :: d' => if String.eqb k key then Some v else dict_get key d'
  end.

(** [key in d] for a dict. *)
Definition dict_contains (key : string) (d : dict) : bool :=
  match dict_get key d with
  | Some _ => true
  | None => false
  end.

(** [d[key]] for a dict. *)
Definition dict_getitem (d : dict) (key : string) : outcome pyval :=
  match dict_get key d with
  | Some v => Ok v
  | None => Raise (KeyError key)
  end.

(** [v[key]] with a [str] key: only a dict can be subscripted by a string; a
    list or a string wants an integer index and the other objects are not
    subscriptable, a [TypeError] either way. *)
Definition getitem (v : pyval) (key : string) : outcome pyval :=
  match v with
  | PDict d => dict_getitem d key
  | _ => Raise TypeError
  end.

(** [bool(v)], the truth value tested by [not v]. *)
Definition truthy (v : pyval) : bool :=
  match v with
  | PNone => false
  | PBool b => b
  | PInt z => negb (Z.eqb z 0)
  | PFloat f => negb (PrimFloat.eqb f 0%float)
  | PStr s => negb (String.eqb s EmptyString)
  | PList l => match l with [] => false | _ => true end
  | PDict d => match d with [] => false | _ => true end
  end.

(** The characters of a string, each a string of length one. *)
Fixpoint chars (s : string) : list pyval :=
  match s with
  | EmptyString => []
  | String c s' => PStr (String c EmptyString) :: chars s'
  end.

(** The sequence a [for] loop runs over: the elements of a list, the keys of
    a dict, the characters of a string; the other objects are not iterable. *)
Definition iterate (v : pyval) : outcome (list pyval) :=
  match v with
  | PList l => Ok l
  | PDict d => Ok (map (fun kv => PStr (fst kv)) d)
  | PStr s => Ok (chars s)
  | _ => Raise TypeError
  end.

(** [isinstance(v, list)]. *)
Definition is_list (v : pyval) : bool :=
  match v with
  | PList _ => true
  | _ => false
  end.

(** *** Whitespace and [str.strip] *)

(** [c.isspace()] on the code points below 256: U+0009..U+000D,
    U+001C..U+001F, U+0020, U+0085 and U+00A0. *)
Definition isspace (c : ascii) : bool :=
  let n := nat_of_ascii c in
  (((9 <=? n) && (n <=? 13)) || ((28 <=? n) && (n <=? 32))
   || (n =? 133) || (n =? 160))%nat.

(** [s.lstrip()] and [s.rstrip()]. *)
Fixpoint lstrip (s : string) : string :=
  match s with
  | EmptyString => EmptyString
  | String c s' => if isspace c then lstrip s' else s
  end.

Fixpoint rstrip (s : string) : string :=
  match s with
  | EmptyString => EmptyString
  | String c s' =>
      match rstrip s' with
      | EmptyString => if isspace c then EmptyString else String c EmptyString
      | r => String c r
      end
  end.

(** [s.strip()]. *)
Definition strip (s : string) : string := rstrip (lstrip s).

(** *** Numbers *)

(** [float(n)] for an [int]: the nearest binary64 number, ties to even, and
    [OverflowError] when the integer is beyond the range of a float. *)
Definition float_of_int (z : Z) : outcome float :=
  match binary_normalize prec emax z 0 false with
  | S754_infinity _ => Raise OverflowError
  | sf => Ok (SF2Prim sf)
  end.

(** The literal [0.01], the duration given to a span of zero length: the
    binary64 number nearest to one hundredth. *)
Definition min_duration : float := 0.01%float.

(** Its mantissa: [min_duration] is this integer times two to the -59. *)
Definition min_duration_mantissa : positive := 5764607523034235.

(** Two to the 46 seconds, more than two million years: up to there the
    floats are less than [0.01] apart. *)
Definition horizon : float := 0x1p+46%float.

(** ** The caption document *)

(** The classes of [pycaps.common] are not part of the sources at hand; the
    transcriber only constructs them and adds to their containers, which
    keep what was added, in insertion order. *)

(** Modelled from the spec: [TimeFragment] of [pycaps.common], a pair of
    seconds, [start] and [end]; its constructor rejects nothing. *)
Record TimeFragment : Type := { start : float; end_ : float }.

(** Modelled from the spec: [Word] of [pycaps.common], a text and its
    [time]. *)
Record Word : Type := { text : string; word_time : TimeFragment }.

(** Modelled from the spec: [Line] of [pycaps.common], its [time] and the
    sequence [words]. *)
Record Line : Type := { line_time : TimeFragment; words : list Word }.

(** Modelled from the spec: [Segment] of [pycaps.common], its [time] and the
    sequence [lines]. *)
Record Segment : Type := { segment_time : TimeFragment; lines : list Line }.

(** Modelled from the spec: [Document] of [pycaps.common], the sequence
    [segments], empty when constructed. *)
Record Document : Type := { segments : list Segment }.

(** ** The transcriber *)

(** What the attribute [self._model] holds: [None]; an object given to the
    constructor that is false, which line 75 passes over (which object it is
    makes no difference: it is only tested); or a true object, a model, of
    type [Model].  What [whisper.load_model] returns is a model. *)
Inductive model_attr (Model : Type) : Type :=
| NoModel
| FalseModel
| TrueModel (m : Model).

Arguments NoModel {Model}.
Arguments FalseModel {Model}.
Arguments TrueModel {Model} m.

(** The fields [__init__] sets (lines 17-20), for models of type [Model]. *)
Record WhisperAudioTranscriber (Model : Type) : Type := {
  _model_size : string;
  _language : option string;
  _model : model_attr Model;
  _device : option string
}.

Arguments _model_size {Model} _.
Arguments _language {Model} _.
Arguments _model {Model} _.
Arguments _device {Model} _.

(** Line 75, [if self._model:]: the model the test finds, a true object. *)
Definition model_found {Model : Type} (self : WhisperAudioTranscriber Model)
  : option Model :=
  match _model self with
  | TrueModel m => Some m
  | NoModel | FalseModel => None
  end.

(** ** The normalizer: [transcribe], lines 33 to 72 *)

Section Transcriber.

(** [float(s)] for a [str]: the number CPython parses from it, or [None]
    where it raises [ValueError]. *)
Variable float_of_str : string -> option float.

(** [str(v)] for an object that is not a [str]. *)
Variable str_of_object : pyval -> string.

(** [float(v)]. *)
Definition py_float (v : pyval) : outcome float :=
  match v with
  | PFloat f => Ok f
  | PInt z => float_of_int z
  | PBool b => Ok (if b then 1%float else 0%float)
  | PStr s =>
      match float_of_str s with
      | Some f => Ok f
      | None => Raise ValueError
      end
  | PNone | PList _ | PDict _ => Raise TypeError
  end.

(** [str(v)]. *)
Definition py_str (v : pyval) : string :=
  match v with
  | PStr s => s
  | _ => str_of_object v
  end.

(** Lines 42-44 and 61-63: the span of a record, its end moved by
    [min_duration] when it equals the start. *)
Definition span (t_start t_end : float) : TimeFragment :=
  let t_end := if PrimFloat.eqb t_start t_end
               then PrimFloat.add t_start min_duration else t_end in
  {| start := t_start; end_ := t_end |}.

(** Lines 55-64, one turn of the loop over the word records: [None] is the
    [continue] of line 57. *)
Definition word_of_entry (word_entry : pyval) : outcome (option Word) :=
  w <- getitem word_entry "word" ;;
  let word_text := strip (py_str w) in
  if String.eqb word_text EmptyString then Ok None
  else
    s <- getitem word_entry "start" ;;
    word_start <- py_float s ;;
    e <- getitem word_entry "end" ;;
    word_end <- py_float e ;;
    Ok (Some {| text := word_text; word_time := span word_start word_end |}).

(** Lines 53-65: the loop; [line_words] is [line.words] so far and each
    [add] appends to it. *)
Fixpoint words_loop (word_entries : list pyval) (line_words : list Word)
  : outcome (list Word) :=
  match word_entries with
  | [] => Ok line_words
  | word_entry :: rest =>
      r <- word_of_entry word_entry ;;
      words_loop rest
        match r with
        | Some word => line_words ++ [word]
        | None => line_words
        end
  end.

(** Lines 40-67, one turn of the loop over the segment records, for a
    record that is a dict: [None] is the [continue] of line 51, which skips
    the [document.segments.add] of line 67.  The line is added to the
    segment before its words are added to the line (line 47), and the
    segment holds that very line, so the words are those the loop leaves. *)
Definition segment_of_dict (segment_info : dict) : outcome (option Segment) :=
  s <- dict_getitem segment_info "start" ;;
  segment_start <- py_float s ;;
  e <- dict_getitem segment_info "end" ;;
  segment_end <- py_float e ;;
  let segment_time := span segment_start segment_end in
  if negb (dict_contains "words" segment_info)
     || negb (match dict_get "words" segment_info with
              | Some ws => is_list ws
              | None => false
              end)
  then
    (* the debug message formats segment_info['text'] *)
    _ <- dict_getitem segment_info "text" ;;
    Ok None
  else
    ws <- dict_getitem segment_info "words" ;;
    word_entries <- iterate ws ;;
    line_words <- words_loop word_entries [] ;;
    Ok (Some {| segment_time := segment_time;
                lines := [ {| line_time := segment_time;
                              words := line_words |} ] |}).

(** A record that is not a dict fails at line 40, [segment_info["start"]]. *)
Definition segment_of_info (segment_info : pyval) : outcome (option Segment) :=
  match segment_info with
  | PDict d => segment_of_dict d
  | _ => Raise TypeError
  end.

(** Lines 39-67: the loop; [doc_segments] is [document.segments] so far. *)
Fixpoint segments_loop (segment_infos : list pyval)
    (doc_segments : list Segment) : outcome (list Segment) :=
  match segment_infos with
  | [] => Ok doc_segments
  | segment_info :: rest =>
      r <- segment_of_info segment_info ;;
      segments_loop rest
        match r with
        | Some segment => doc_segments ++ [segment]
        | None => doc_segments
        end
  end.

(** Lines 33-72: the document built from the engine's result.  The calls
    to the logger only format their message and change nothing. *)
Definition normalize (result : dict) : outcome Document :=
  if negb (dict_contains "segments" result)
     || negb (match dict_get "segments" result with
              | Some segs => truthy segs
              | None => false
              end)
  then Ok {| segments := [] |}
  else
    segs <- dict_getitem result "segments" ;;
    segment_infos <- iterate segs ;;
    doc_segments <- segments_loop segment_infos [] ;;
    Ok {| segments := doc_segments |}.

(** ** The engine: [_get_model] and [transcribe] *)

(** What is outside the program: the installed packages, the model files,
    the devices.  [import_whisper] is [import whisper]; [load_model] is
    [whisper.load_model(name)] or, with [Some device],
    [whisper.load_model(name, device=device)]; [model_transcribe] is the
    [transcribe] method of a loaded model, called with the audio path and
    the language. *)
Variable World : Type.
Variable Model : Type.
Variable import_whisper : World -> option engine_exn * World.
Variable load_model :
  string -> option string -> World -> (Model + engine_exn) * World.
Variable model_transcribe :
  Model -> string -> option string -> World -> (dict + engine_exn) * World.

(** Line 83 or 86: the assignment to [self._model]. *)
Definition set_model (self : WhisperAudioTranscriber Model) (m : Model)
  : WhisperAudioTranscriber Model :=
  {| _model_size := _model_size self; _language := _language self;
     _model := TrueModel m; _device := _device self |}.

(** [f"{device}"] for an optional string. *)
Definition format_device (device : option string) : string :=
  match device with
  | Some d => d
  | None => "None"
  end.

(** The character of the escape in line 91. *)
Definition newline : string := String (ascii_of_nat 10) EmptyString.

(** Lines 91-92, the message of the [RuntimeError]; [e] is [str(e)]. *)
Definition load_error_message (self : WhisperAudioTranscriber Model)
    (e : string) : string :=
  "Error loading Whisper model (size: " ++ _model_size self
    ++ ", device: " ++ format_device (_device self) ++ "): " ++ e
    ++ newline
    ++ "Ensure Whisper is installed and models are available "
    ++ "(or can be downloaded).".

(** Lines 82-86: the device is passed on when it is a true value. *)
Definition device_argument (self : WhisperAudioTranscriber Model)
  : option string :=
  match _device self with
  | Some d => if String.eqb d EmptyString then None else Some d
  | None => None
  end.

(** Lines 74-93.  The result, the transcriber as the call leaves it and the
    world after the calls made.  Line 75 tests the truth of [self._model]: a
    false object is passed over like [None] and replaced by the model that is
    loaded.  The import stands before the [try]; the handler catches an
    [Exception] only. *)
Definition _get_model (self : WhisperAudioTranscriber Model) (w : World)
  : outcome Model * WhisperAudioTranscriber Model * World :=
  match model_found self with
  | Some m => (Ok m, self, w)
  | None =>
      match import_whisper w with
      | (Some e, w1) => (Raise (FromEngine e), self, w1)
      | (None, w1) =>
          match load_model (_model_size self) (device_argument self) w1 with
          | (inl m, w2) => (Ok m, set_model self m, w2)
          | (inr (EngineException e), w2) =>
              (Raise (RuntimeError (load_error_message self e)), self, w2)
          | (inr EngineInterrupt, w2) =>
              (Raise (FromEngine EngineInterrupt), self, w2)
          end
      end
  end.

(** Lines 22-72. *)
Definition transcribe (self : WhisperAudioTranscriber Model)
    (audio_path : string) (w : World)
  : outcome Document * WhisperAudioTranscriber Model * World :=
  match _get_model self w with
  | (Raise e, self1, w1) => (Raise e, self1, w1)
  | (Ok model, self1, w1) =>
      match model_transcribe model audio_path (_language self1) w1 with
      | (inr e, w2) => (Raise (FromEngine e), self1, w2)
      | (inl result, w2) => (normalize result, self1, w2)
      end
  end.

(** ** Reading a raw result *)

(** The segment records of a result: the elements of its [segments] list. *)
Definition segment_records (result : dict) : list pyval :=
  match dict_get "segments" result with
  | Some (PList segment_infos) => segment_infos
  | _ => []
  end.

(** The word records of a segment record: the elements of its [words] list. *)
Definition word_records (segment_info : pyval) : list pyval :=
  match segment_info with
  | PDict d =>
      match dict_get "words" d with
      | Some (PList word_entries) => word_entries
      | _ => []
      end
  | _ => []
  end.

(** The record has a usable [words] field: present, and a list. *)
Definition usable_words (segment_info : pyval) : bool :=
  match segment_info with
  | PDict d =>
      match dict_get "words" d with
      | Some ws => is_list ws
      | None => false
      end
  | _ => false
  end.

(** The field [key] of a record is there and [float] accepts it. *)
Definition numeric_field (key : string) (d : dict) : option float :=
  match dict_get key d with
  | Some v =>
      match py_float v with
      | Ok f => Some f
      | Raise _ => None
      end
  | None => None
  end.

(** The coerced [start] and [end] of a segment or word record. *)
Definition record_span (record : pyval) : option (float * float) :=
  match record with
  | PDict d =>
      match numeric_field "start" d, numeric_field "end" d with
      | Some s, Some e => Some (s, e)
      | _, _ => None
      end
  | _ => None
  end.

(** The [word] field of a word record, coerced to a string and trimmed. *)
Definition word_text (word_entry : pyval) : option string :=
  match word_entry with
  | PDict d =>
      match dict_get "word" d with
      | Some w => Some (strip (py_str w))
      | None => None
      end
  | _ => None
  end.

(** The trimmed text of the word record is not empty. *)
Definition spoken (word_entry : pyval) : bool :=
  match word_text word_entry with
  | Some t => negb (String.eqb t EmptyString)
  | None => false
  end.

(** The word records of a segment record that give a word, in order. *)
Definition kept_words (segment_info : pyval) : list pyval :=
  filter spoken (word_records segment_info).

(** The segment records of a result that give a segment, in order. *)
Definition kept_segments (result : dict) : list pyval :=
  filter usable_words (segment_records result).

(** Every record of the result, the segment records each followed by its
    word records. *)
Definition records (result : dict) : list pyval :=
  flat_map (fun segment_info => segment_info :: word_records segment_info)
           (segment_records result).

(** [P] holds of the coerced start and end of every record that has them. *)
Definition all_spans (P : float -> float -> bool) (result : dict) : bool :=
  forallb (fun record =>
             match record_span record with
             | Some (s, e) => P s e
             | None => true
             end)
          (records result).

(** ** Reading a document *)

(** The words of a segment, line after line. *)
Definition segment_words (segment : Segment) : list Word :=
  flat_map words (lines segment).

(** Every [TimeFragment] of a document: of each segment, of its lines and
    of their words. *)
Definition fragments (document : Document) : list TimeFragment :=
  flat_map (fun segment =>
              segment_time segment
                :: flat_map (fun line => line_time line :: map word_time (words line))
                            (lines segment))
           (segments document).

(** [end > start]. *)
Definition increasing (t : TimeFragment) : bool :=
  PrimFloat.ltb (start t) (end_ t).

(** A pair the correction leaves or makes strictly increasing: the start
    is below the end, or equals it and lies from zero up to the horizon. *)
Definition correctable (s e : float) : bool :=
  PrimFloat.ltb s e
  || (PrimFloat.eqb s e && PrimFloat.leb 0 s && PrimFloat.ltb s horizon).

(** ** From records to the document *)

(** The word is the one built from the word record: its trimmed text and
    its span. *)
Definition word_from (word_entry : pyval) (word : Word) : Prop :=
  exists t s e,
    word_text word_entry = Some t
    /\ record_span word_entry = Some (s, e)
    /\ word = {| text := t; word_time := span s e |}.

(** The segment is the one built from the segment record: its span, and
    one line with the same span and the words of the kept word records. *)
Definition segment_from (segment_info : pyval) (segment : Segment) : Prop :=
  exists s e ws,
    record_span segment_info = Some (s, e)
    /\ segment = {| segment_time := span s e;
                    lines := [ {| line_time := span s e; words := ws |} ] |}
    /\ Forall2 word_from (kept_words segment_info) ws.

(** ** The results that raise nothing *)

(** Nothing was raised. *)
Definition is_ok {A : Type} (m : outcome A) : bool :=
  match m with
  | Ok _ => true
  | Raise _ => false
  end.

(** A dict with a [word] and, unless its trimmed text is empty, a span. *)
Definition sound_word (word_entry : pyval) : bool :=
  match word_entry with
  | PDict d =>
      match dict_get "word" d with
      | Some w =>
          if String.eqb (strip (py_str w)) EmptyString then true
          else match record_span word_entry with
               | Some _ => true
               | None => false
               end
      | None => false
      end
  | _ => false
  end.

(** A dict with a span and either a list of sound word records or, when
    [words] is absent or not a list, a [text]. *)
Definition sound_segment (segment_info : pyval) : bool :=
  match segment_info with
  | PDict d =>
      match record_span segment_info with
      | Some _ =>
          match dict_get "words" d with
          | Some (PList word_entries) => forallb sound_word word_entries
          | _ => dict_contains "text" d
          end
      | None => false
      end
  | _ => false
  end.

(** [segments] is absent, false, or a list of sound segment records. *)
Definition sound (result : dict) : bool :=
  match dict_get "segments" result with
  | None => true
  | Some segs =>
      if truthy segs
      then match segs with
           | PList segment_infos => forallb sound_segment segment_infos
           | _ => false
           end
      else true
  end.

(** ** Relating the spans of the records to the fragments *)

(** The record has a span, and [R] relates it to the fragment. *)
Definition span_rel (R : float -> float -> TimeFragment -> Prop)
    (record : pyval) (t : TimeFragment) : Prop :=
  exists s e, record_span record = Some (s, e) /\ R s e t.

(** [R] relates the span of the segment record to the fragment of the
    segment and of each of its lines, and the span of each kept word record
    to the fragment of its word, in order. *)
Definition times_from (R : float -> float -> TimeFragment -> Prop)
    (segment_info : pyval) (segment : Segment) : Prop :=
  span_rel R segment_info (segment_time segment)
  /\ Forall (fun line => span_rel R segment_info (line_time line)) (lines segment)
  /\ Forall2 (fun word_entry word => span_rel R word_entry (word_time word))
             (kept_words segment_info) (segment_words segment).

(** A span of zero length gets the fragment from [s] to [s + 0.01]. *)
Definition corrected (s e : float) (t : TimeFragment) : Prop :=
  PrimFloat.eqb s e = true ->
  t = {| start := s; end_ := PrimFloat.add s min_duration |}.

(** The fragment is the span as it stands. *)
Definition unchanged (s e : float) (t : TimeFragment) : Prop :=
  t = {| start := s; end_ := e |}.

(** [sub] occurs in [s]. *)
Definition contains (sub s : string) : Prop :=
  exists before after, s = (before ++ sub ++ after)%string.

(** ** Raw results of the examples *)

(** The result with these segment records. *)
Definition raw_result (segment_infos : list pyval) : dict :=
  [("segments", PList segment_infos)].

(** A segment record with the given list of words before its other fields. *)
Definition with_words (fields : dict) (word_entries : list pyval) : pyval :=
  PDict (("words", PList word_entries) :: fields).

(** A word record as the engine gives it. *)
Definition word_record (w : string) (s e : float) : pyval :=
  PDict [("word", PStr w); ("start", PFloat s); ("end", PFloat e)].

(** Scenario 2 of the spec: spans of zero length and a padded word. *)
Definition scenario2 : dict :=
  raw_result
    [PDict [("start", PFloat 1); ("end", PFloat 1); ("text", PStr "hi");
            ("words", PList [word_record " hi " 1 1])]].

(** Scenario 3: a segment record with no [words] key. *)
Definition scenario3 : dict :=
  raw_result [PDict [("start", PFloat 0); ("end", PFloat 2); ("text", PStr "um")]].

(** Scenario 4: a blank word record between two words. *)
Definition scenario4 : dict :=
  raw_result
    [PDict [("start", PFloat 0); ("end", PFloat 2); ("text", PStr "a b");
            ("words", PList [word_record "a" 0 1; word_record "   " 1 1;
                             word_record " b" 1 2])]].

(** Scenario 5: no [segments] key. *)
Definition scenario5 : dict := [].

(** A segment record with no [start]. *)
Definition missing_start : dict :=
  raw_result [PDict [("end", PFloat 2); ("text", PStr "um"); ("words", PList [])]].

(** A segment record whose [start] is [None]. *)
Definition none_start : dict :=
  raw_result [PDict [("start", PNone); ("end", PFloat 2); ("text", PStr "um");
                     ("words", PList [])]].

(** A segment record with neither [words] nor [text]. *)
Definition missing_text : dict :=
  raw_result [PDict [("start", PFloat 0); ("end", PFloat 2)]].

(** A word record with no [word]. *)
Definition missing_word : dict :=
  raw_result
    [PDict [("start", PFloat 0); ("end", PFloat 2); ("text", PStr "um");
            ("words", PList [PDict [("start", PFloat 0); ("end", PFloat 1)]])]].

(** A segment record that ends before it starts. *)
Definition reversed_span : dict :=
  raw_result [PDict [("start", PFloat 2); ("end", PFloat 1); ("text", PStr "um");
                     ("words", PList [])]].

(** A span of zero length so late that adding [0.01] to the start gives
    the start back: ten to the power sixteen seconds. *)
Definition late_span : dict :=
  raw_result [PDict [("start", PFloat 1e16); ("end", PFloat 1e16);
                     ("text", PStr "um"); ("words", PList [])]].

(** Two words, every span with its start below its end. *)
Definition ordered_result : dict :=
  raw_result
    [PDict [("start", PFloat 0); ("end", PFloat 2); ("text", PStr "a b");
            ("words", PList [word_record "a" 0 1; word_record " b" 1 2])]].

(** The documents of scenarios 2 and 4 and of [ordered_result]. *)
Definition one_segment (t : TimeFragment) (line_words : list Word) : Document :=
  {| segments := [ {| segment_time := t;
                      lines := [ {| line_time := t; words := line_words |} ] |} ] |}.

Definition scenario2_document : Document :=
  one_segment {| start := 1; end_ := 1.01 |}
    [ {| text := "hi";
         word_time := {| start := 1; end_ := 1.01 |} |} ].

Definition scenario4_document : Document :=
  one_segment {| start := 0; end_ := 2 |}
    [ {| text := "a"; word_time := {| start := 0; end_ := 1 |} |};
      {| text := "b"; word_time := {| start := 1; end_ := 2 |} |} ].

(** A blank word record with no timestamps at all. *)
Definition untimed_blank : dict := [("word", PStr "   ")].

(** Builtins for the examples, none of whose values needs them: a
    [float] that accepts no string and a [str] that prints every object
    alike. *)
Definition example_float_of_str : string -> option float := fun _ => None.
Definition example_str_of_object : pyval -> string := fun _ => "object".

(** An engine for the examples: the world counts the calls of
    [load_model], which finds no device. *)
Definition example_import : nat -> option engine_exn * nat :=
  fun w => (None, w).
Definition example_load_model
  : string -> option string -> nat -> (unit + engine_exn) * nat :=
  fun _ _ w => (inr (EngineException "no CUDA device"), S w).
Definition example_model_transcribe
  : unit -> string -> option string -> nat -> (dict + engine_exn) * nat :=
  fun _ _ _ w => (inl scenario2, w).

(** A transcriber for that engine: the [base] model on [cuda], none loaded
    yet. *)
Definition example_self : WhisperAudioTranscriber unit :=
  {| _model_size := "base"; _language := None; _model := NoModel;
     _device := Some "cuda" |}.

(** ** The constructor *)

(** Lines 7-20, [__init__]: an argument left out is [None] here ([NoModel]
    for the model) and takes its default, [base] for the model size and
    [None] for the others. *)
Definition __init__ (model_size language : option string)
    (model : model_attr Model) (device : option string)
  : WhisperAudioTranscriber Model :=
  {| _model_size := match model_size with
                    | Some size => size
                    | None => "base"
                    end;
     _language := language;
     _model := model;
     _device := device |}.

(** What [transcribe] does once it has the model: lines 26-72. *)
Definition transcribe_with (model : Model) (self : WhisperAudioTranscriber Model)
    (audio_path : string) (w : World)
  : outcome Document * WhisperAudioTranscriber Model * World :=
  match model_transcribe model audio_path (_language self) w with
  | (inr e, w2) => (Raise (FromEngine e), self, w2)
  | (inl result, w2) => (normalize result, self, w2)
  end.

(** ** Records that read alike *)

(** The two dicts bind the same value, or none, to each of the keys. *)
Definition same_on (keys : list string) (d d' : dict) : Prop :=
  forall key, In key keys -> dict_get key d = dict_get key d'.

(** Two word records with the same [word], [start] and [end]. *)
Definition word_alike (word_entry word_entry' : pyval) : Prop :=
  match word_entry, word_entry' with
  | PDict d, PDict d' => same_on ["word"; "start"; "end"] d d'
  | _, _ => word_entry = word_entry'
  end.

(** Two segment records with the same [start] and [end] and either lists of
    words that are alike one by one, or no list of words and a [text] in
    both or in neither. *)
Definition segment_alike (segment_info segment_info' : pyval) : Prop :=
  match segment_info, segment_info' with
  | PDict d, PDict d' =>
      same_on ["start"; "end"] d d'
      /\ match dict_get "words" d, dict_get "words" d' with
         | Some (PList ws), Some (PList ws') => Forall2 word_alike ws ws'
         | _, _ =>
             usable_words segment_info = false
             /\ usable_words segment_info' = false
             /\ dict_contains "text" d = dict_contains "text" d'
         end
  | _, _ => segment_info = segment_info'
  end.

(** The start is kept, and the end too unless it equals the start. *)
Definition passed_through (s e : float) (t : TimeFragment) : Prop :=
  start t = s /\ (PrimFloat.eqb s e = false -> end_ t = e).

(** The errors of the builtins on a raw result: a missing key among the four
    the code reads, or a value of the wrong type or out of range. *)
Definition builtin_error (e : exn) : Prop :=
  e = KeyError "start" \/ e = KeyError "end" \/ e = KeyError "text"
  \/ e = KeyError "word" \/ e = TypeError \/ e = ValueError
  \/ e = OverflowError.

(** ** More examples *)

(** A segment record as Whisper gives it, with the keys the code does not
    read: the same words as scenario 4 without its blank record. *)
Definition whisper_segment : pyval :=
  PDict [("id", PInt 0); ("seek", PInt 0); ("start", PFloat 0); ("end", PFloat 2);
         ("text", PStr " a b"); ("tokens", PList [PInt 257; PInt 272]);
         ("temperature", PFloat 0); ("no_speech_prob", PFloat 0.5);
         ("words",
          PList [PDict [("word", PStr "a"); ("start", PFloat 0); ("end", PFloat 1);
                        ("probability", PFloat 0.5)];
                 PDict [("word", PStr " b"); ("start", PFloat 1); ("end", PFloat 2);
                        ("probability", PFloat 0.25)]])].

(** A record that is not a dict, after a sound one. *)
Definition second_record_bad : list pyval :=
  [with_words [("start", PFloat 0); ("end", PFloat 1)] []; PStr "oops";
   PDict []].

(** Engines for the examples: one that loads a model, one whose package is
    not installed, one interrupted while loading, one whose model fails on
    the audio. *)
Definition example_load_ok
  : string -> option string -> nat -> (unit + engine_exn) * nat :=
  fun _ _ w => (inl tt, S w).
Definition example_import_fails : nat -> option engine_exn * nat :=
  fun w => (Some (EngineException "No module named whisper"), w).
Definition example_load_interrupted
  : string -> option string -> nat -> (unit + engine_exn) * nat :=
  fun _ _ w => (inr EngineInterrupt, S w).
Definition example_transcribe_fails
  : unit -> string -> option string -> nat -> (dict + engine_exn) * nat :=
  fun _ _ _ w => (inr (EngineException "ffmpeg not found"), w).

(** A transcriber with an empty device, and one with a model supplied. *)
Definition example_self_no_device : WhisperAudioTranscriber unit :=
  {| _model_size := "base"; _language := None; _model := NoModel;
     _device := Some EmptyString |}.
Definition example_self_loaded : WhisperAudioTranscriber unit :=
  {| _model_size := "base"; _language := None; _model := TrueModel tt;
     _device := Some "cuda" |}.

(** ** Binary64 arithmetic: adding [0.01] *)

Section Binary64.

Local Open Scope Z_scope.

(** The number of binary digits is the size of the number. *)
Lemma digits2_size (p : positive) : digits2_pos p = Pos.size p.
Proof.
  induction p as [p IH | p IH |]; simpl; rewrite ?IH; reflexivity.
Qed.

Lemma digits2_bounds (p : positive) :
  2 ^ (Zpos (digits2_pos p) - 1) <= Zpos p < 2 ^ Zpos (digits2_pos p).
Proof.
  rewrite digits2_size. split.
  - pose proof (Pos.size_le p) as H.
    apply Pos2Z.pos_le_pos in H. rewrite Pos2Z.inj_pow in H.
    change (Zpos p~0) with (2 * Zpos p) in H.
    replace (Zpos (Pos.size p)) with (Z.succ (Zpos (Pos.size p) - 1)) in H
      by lia.
    rewrite Z.pow_succ_r in H by lia. lia.
  - pose proof (Pos.size_gt p) as H.
    apply Pos2Z.pos_lt_pos in H. rewrite Pos2Z.inj_pow in H. exact H.
Qed.

Lemma digits2_unique (p : positive) (d : Z) :
  2 ^ (d - 1) <= Zpos p < 2 ^ d -> Zpos (digits2_pos p) = d.
Proof.
  intros [Hlo Hhi]. pose proof (digits2_bounds p) as [Hlo' Hhi'].
  assert (0 < d).
  { destruct (Z_lt_le_dec 0 d) as [|Hd]; [ assumption | ].
    destruct (Z.eq_dec d 0) as [-> | ]; [ simpl in Hhi; lia | ].
    rewrite Z.pow_neg_r in Hhi by lia. lia. }
  assert (Zpos (digits2_pos p) - 1 < d).
  { apply (Z.pow_lt_mono_r_iff 2); lia. }
  assert (d - 1 < Zpos (digits2_pos p)).
  { apply (Z.pow_lt_mono_r_iff 2); lia. }
  lia.
Qed.

Lemma shr_1_div2 (mrs : shr_record) :
  0 <= shr_m mrs -> shr_m (shr_1 mrs) = shr_m mrs / 2.
Proof.
  destruct mrs as [m r s]; cbn [shr_m]. intros Hm.
  destruct m as [| [p | p |] | p]; cbn [shr_1 shr_m].
  - reflexivity.
  - apply (Z.div_unique _ _ _ 1); lia.
  - apply (Z.div_unique _ _ _ 0); lia.
  - reflexivity.
  - lia.
Qed.

Lemma iter_pos_shr_1 (n : positive) (mrs : shr_record) :
  0 <= shr_m mrs ->
  shr_m (iter_pos shr_1 n mrs) = shr_m mrs / 2 ^ Zpos n.
Proof.
  revert mrs. induction n as [n IH | n IH |]; intros mrs Hm; simpl iter_pos.
  - assert (H1 : 0 <= shr_m (shr_1 mrs)).
    { rewrite shr_1_div2 by exact Hm. apply Z.div_pos; lia. }
    assert (H2 : 0 <= shr_m (iter_pos shr_1 n (shr_1 mrs))).
    { rewrite IH by exact H1. apply Z.div_pos; [ exact H1 | lia ]. }
    rewrite IH by exact H2. rewrite IH by exact H1.
    rewrite shr_1_div2 by exact Hm.
    rewrite !Z.div_div by lia. f_equal.
    replace (Zpos n~1) with (1 + Zpos n + Zpos n) by lia.
    rewrite !Z.pow_add_r by lia. change (2 ^ 1) with 2. ring.
  - assert (H2 : 0 <= shr_m (iter_pos shr_1 n mrs)).
    { rewrite IH by exact Hm. apply Z.div_pos; [ exact Hm | lia ]. }
    rewrite IH by exact H2. rewrite IH by exact Hm.
    rewrite Z.div_div by lia. f_equal.
    replace (Zpos n~0) with (Zpos n + Zpos n) by lia.
    rewrite Z.pow_add_r by lia. reflexivity.
  - rewrite shr_1_div2 by exact Hm. reflexivity.
Qed.

Lemma round_nearest_even_bounds (m : Z) (l : location) :
  m <= round_nearest_even m l <= m + 1.
Proof.
  destruct l as [| [ | | ]]; simpl; try lia.
  destruct (Z.even m); lia.
Qed.

Lemma fexp_normal (e : Z) : -1021 <= e -> fexp prec emax e = e - 53.
Proof.
  intros H. unfold fexp, emin, prec, emax. lia.
Qed.

Lemma shr_fexp_pos (m : positive) (e : Z) :
  53 <= Zpos (digits2_pos m) ->
  -1021 <= Zpos (digits2_pos m) + e ->
  exists mrs,
    shr_fexp prec emax (Zpos m) e loc_Exact = (mrs, Zpos (digits2_pos m) + e - 53)
    /\ shr_m mrs = Zpos m / 2 ^ (Zpos (digits2_pos m) - 53).
Proof.
  intros Hd He. unfold shr_fexp. cbn [Zdigits2 shr_record_of_loc].
  rewrite (fexp_normal _ He). unfold shr.
  destruct (Zpos (digits2_pos m) + e - 53 - e) as [| n | n] eqn:Hn.
  - eexists. split; [ f_equal; lia | ].
    cbn [shr_m]. replace (Zpos (digits2_pos m) - 53) with 0 by lia.
    rewrite Z.pow_0_r, Z.div_1_r. reflexivity.
  - eexists. split; [ f_equal; lia | ].
    rewrite iter_pos_shr_1 by (cbn [shr_m]; lia). cbn [shr_m].
    do 2 f_equal. lia.
  - lia.
Qed.

Lemma pow2_split (a b : Z) : 0 <= b -> b <= a -> 2 ^ a = 2 ^ (a - b) * 2 ^ b.
Proof.
  intros. rewrite <- Z.pow_add_r by lia. f_equal. lia.
Qed.

Lemma div_digits_bounds (M : positive) :
  53 <= Zpos (digits2_pos M) ->
  2 ^ 52 <= Zpos M / 2 ^ (Zpos (digits2_pos M) - 53) < 2 ^ 53.
Proof.
  intros Hd. pose proof (digits2_bounds M) as [Hlo Hhi].
  set (d := Zpos (digits2_pos M)) in *.
  assert (Hpos : 0 < 2 ^ (d - 53)) by (apply Z.pow_pos_nonneg; lia).
  split.
  - apply Z.div_le_lower_bound; [ exact Hpos | ].
    rewrite Z.mul_comm.
    replace (2 ^ 52 * 2 ^ (d - 53)) with (2 ^ (d - 1)); [ exact Hlo | ].
    rewrite <- Z.pow_add_r by lia. f_equal. lia.
  - apply Z.div_lt_upper_bound; [ exact Hpos | ].
    replace (2 ^ (d - 53) * 2 ^ 53) with (2 ^ d); [ exact Hhi | ].
    rewrite <- Z.pow_add_r by lia. f_equal. lia.
Qed.

(** The second shift of [binary_round_aux], after the rounding. *)
Lemma shr_fexp_rounded (p : positive) (e : Z) :
  2 ^ 52 <= Zpos p <= 2 ^ 53 -> -1074 <= e ->
  exists mrs,
    (shr_fexp prec emax (Zpos p) e loc_Exact = (mrs, e) /\ shr_m mrs = Zpos p)
    \/ (shr_fexp prec emax (Zpos p) e loc_Exact = (mrs, e + 1)
        /\ shr_m mrs = 2 ^ 52).
Proof.
  intros [Hlo Hhi] He.
  destruct (Z_lt_le_dec (Zpos p) (2 ^ 53)) as [Hlt | Hge].
  - assert (Hd : Zpos (digits2_pos p) = 53).
    { apply digits2_unique. change (53 - 1) with 52. lia. }
    destruct (shr_fexp_pos p e) as (mrs & Hshr & Hm); [ lia | lia | ].
    rewrite Hd in Hshr, Hm. exists mrs. left. split.
    + rewrite Hshr. f_equal. lia.
    + rewrite Hm. change (53 - 53) with 0. rewrite Z.pow_0_r. apply Z.div_1_r.
  - assert (Hp : Zpos p = 2 ^ 53) by lia.
    assert (Hd : Zpos (digits2_pos p) = 54).
    { apply digits2_unique. rewrite Hp. change (54 - 1) with 53. lia. }
    destruct (shr_fexp_pos p e) as (mrs & Hshr & Hm); [ lia | lia | ].
    rewrite Hd in Hshr, Hm. exists mrs. right. split.
    + rewrite Hshr. f_equal. lia.
    + rewrite Hm, Hp. reflexivity.
Qed.

(** Rounding a positive integer of at least 53 digits. *)
Lemma binary_round_pos (M : positive) (e : Z) :
  53 <= Zpos (digits2_pos M) ->
  -1021 <= Zpos (digits2_pos M) + e ->
  Zpos (digits2_pos M) + e - 53 < 971 ->
  exists m',
    (binary_round prec emax false M e
     = S754_finite false m' (Zpos (digits2_pos M) + e - 53)
     /\ Zpos M / 2 ^ (Zpos (digits2_pos M) - 53) <= Zpos m')
    \/ binary_round prec emax false M e
       = S754_finite false m' (Zpos (digits2_pos M) + e - 53 + 1).
Proof.
  intros Hd He Hmax.
  pose proof (div_digits_bounds M Hd) as Hdiv.
  unfold binary_round. rewrite (fexp_normal _ He).
  assert (Halign : shl_align M e (Zpos (digits2_pos M) + e - 53) = (M, e)).
  { unfold shl_align.
    destruct (Zpos (digits2_pos M) + e - 53 - e) eqn:Hn; try reflexivity. lia. }
  rewrite Halign. unfold binary_round_aux.
  destruct (shr_fexp_pos M e Hd He) as (mrs1 & -> & Hm1).
  set (d := Zpos (digits2_pos M)) in *.
  pose proof (round_nearest_even_bounds (shr_m mrs1) (loc_of_shr_record mrs1))
    as Hrne.
  destruct (round_nearest_even (shr_m mrs1) (loc_of_shr_record mrs1))
    as [| p2 | p2] eqn:Hm2; try lia.
  destruct (shr_fexp_rounded p2 (d + e - 53)) as (mrs2 & [[-> Hm] | [-> Hm]]);
    try lia; rewrite Hm.
  - replace (Z.leb (d + e - 53) (emax - prec)) with true
      by (symmetry; apply Z.leb_le; unfold emax, prec; lia).
    exists p2. left. split; [ reflexivity | lia ].
  - change (2 ^ 52) with (Zpos (2 ^ 52)).
    replace (Z.leb (d + e - 53 + 1) (emax - prec)) with true
      by (symmetry; apply Z.leb_le; unfold emax, prec; lia).
    exists (2 ^ 52)%positive. right. reflexivity.
Qed.

Lemma iter_xO (mx d : positive) :
  Zpos (Pos.iter xO mx d) = Zpos mx * 2 ^ Zpos d.
Proof.
  revert mx. induction d as [d IH | d IH |]; intros mx; simpl Pos.iter.
  - rewrite Pos2Z.inj_xO, !IH.
    replace (Zpos d~1) with (1 + Zpos d + Zpos d) by lia.
    rewrite !Z.pow_add_r by lia. change (2 ^ 1) with 2. ring.
  - rewrite !IH. replace (Zpos d~0) with (Zpos d + Zpos d) by lia.
    rewrite Z.pow_add_r by lia. ring.
  - rewrite Pos2Z.inj_xO. change (2 ^ 1) with 2. ring.
Qed.

Lemma shl_align_fst (mx : positive) (ex ez : Z) :
  ez <= ex -> Zpos (fst (shl_align mx ex ez)) = Zpos mx * 2 ^ (ex - ez).
Proof.
  intros H. unfold shl_align.
  destruct (ez - ex) as [| d | d] eqn:Hd; cbn [fst].
  - replace (ex - ez) with 0 by lia. rewrite Z.pow_0_r. ring.
  - lia.
  - rewrite iter_xO. do 2 f_equal. lia.
Qed.

Lemma bounded_canonical (mx : positive) (ex : Z) :
  bounded prec emax mx ex = true ->
  -1074 <= ex /\ Zpos (digits2_pos mx) <= 53
  /\ (-1074 < ex -> Zpos (digits2_pos mx) = 53).
Proof.
  unfold bounded, canonical_mantissa, fexp, emin, prec, emax.
  intros H. apply andb_true_iff in H. destruct H as [H _].
  apply Z.eqb_eq in H. lia.
Qed.

Lemma pow2_lt_digits (a b : Z) : 0 <= a -> 2 ^ a < 2 ^ b -> a < b.
Proof.
  intros Ha H. apply (Z.pow_lt_mono_r_iff 2); try lia.
  destruct (Z_lt_le_dec b 0); [ | lia ].
  rewrite (Z.pow_neg_r 2 b) in H by lia.
  pose proof (Z.pow_pos_nonneg 2 a). lia.
Qed.

Lemma min_duration_mantissa_bounds :
  2 ^ 52 <= Zpos min_duration_mantissa < 2 ^ 53.
Proof.
  unfold min_duration_mantissa.
  split; [ apply Z.leb_le | apply Z.ltb_lt ]; reflexivity.
Qed.

(** Adding the literal to a number below two to the 46 gives a greater
    number: the sum, cut to 53 digits, is at least one unit in the last place
    above. *)
Lemma SFadd_small (mx : positive) (ex : Z) :
  bounded prec emax mx ex = true -> ex <= -7 ->
  SFltb (S754_finite false mx ex)
        (SFadd prec emax (S754_finite false mx ex)
               (S754_finite false min_duration_mantissa (-59)))
  = true.
Proof.
  intros Hb Hex.
  destruct (bounded_canonical mx ex Hb) as (Hemin & Hdx & Hnormal).
  pose proof (digits2_bounds mx) as [Hmlo Hmhi].
  pose proof min_duration_mantissa_bounds as [Hclo Hchi].
  assert (Hmx : Zpos mx < 2 ^ 53).
  { eapply Z.lt_le_trans; [ exact Hmhi | ]. apply Z.pow_le_mono_r; lia. }
  unfold SFadd. cbn [cond_Zopp].
  set (ez := Z.min ex (-59)).
  set (a := fst (shl_align mx ex ez)).
  set (b := fst (shl_align min_duration_mantissa (-59) ez)).
  assert (Ha : Zpos a = Zpos mx * 2 ^ (ex - ez)) by (apply shl_align_fst; lia).
  assert (Hb' : Zpos b = Zpos min_duration_mantissa * 2 ^ (-59 - ez))
    by (apply shl_align_fst; lia).
  change (Zpos a + Zpos b) with (Zpos (a + b)). cbn [binary_normalize].
  pose proof (digits2_bounds (a + b)) as [Hlo Hhi].
  set (d := Zpos (digits2_pos (a + b))) in *.
  rewrite Pos2Z.inj_add, Ha, Hb' in Hlo, Hhi.
  destruct (Z_le_gt_dec (-59) ex) as [Hcase | Hcase].
  - (* the start is at least 2^-7: the sum is aligned on the literal *)
    assert (Hez : ez = -59) by lia. rewrite Hez in *.
    change (-59 - -59) with 0 in *. rewrite Z.pow_0_r, Z.mul_1_r in *.
    set (k := ex - -59) in *.
    assert (Hk : 0 <= k <= 52) by lia.
    rewrite (Hnormal ltac:(lia)) in Hmlo. change (53 - 1) with 52 in Hmlo.
    assert (Hpk : 0 < 2 ^ k) by (apply Z.pow_pos_nonneg; lia).
    assert (Hd1 : 53 + k <= d).
    { assert (52 + k < d); [ | lia ].
      apply pow2_lt_digits; [ lia | ].
      eapply Z.le_lt_trans; [ | exact Hhi ].
      rewrite Z.pow_add_r by lia. nia. }
    assert (Hd2 : d <= 54 + k).
    { assert (d - 1 < 54 + k); [ | lia ].
      apply pow2_lt_digits; [ lia | ].
      eapply Z.le_lt_trans; [ exact Hlo | ].
      replace (54 + k) with (1 + (53 + k)) by lia.
      rewrite (Z.pow_add_r 2 1), (Z.pow_add_r 2 53) by lia.
      change (2 ^ 1) with 2.
      assert (2 ^ 53 <= 2 ^ 53 * 2 ^ k) by nia. nia. }
    destruct (binary_round_pos (a + b) (-59)) as (m' & [[-> Hm'] | ->]);
      fold d; try lia; unfold SFltb, SFcompare.
    + destruct (Z.compare_spec ex (d + -59 - 53)) as [Heq | Hlt | Hgt];
        [ | reflexivity | lia ].
      assert (Hdk : d - 53 = k) by lia. fold d in Hm'. rewrite Hdk in Hm'.
      rewrite Pos2Z.inj_add, Ha, Hb' in Hm'.
      rewrite Z.add_comm, Z.div_add in Hm' by lia.
      assert (1 <= Zpos min_duration_mantissa / 2 ^ k).
      { apply Z.div_le_lower_bound; [ lia | ].
        assert (2 ^ k <= 2 ^ 52) by (apply Z.pow_le_mono_r; lia). lia. }
      rewrite Pos.compare_cont_spec. cbn [Pos.switch_Eq].
      assert (Hlt : (mx < m')%positive) by lia.
      rewrite Hlt. reflexivity.
    + destruct (Z.compare_spec ex (d + -59 - 53 + 1)) as [Heq | Hlt | Hgt];
        [ lia | reflexivity | lia ].
  - (* the start is below 2^-7: the sum is aligned on the start *)
    assert (Hez : ez = ex) by lia. rewrite Hez in *.
    replace (ex - ex) with 0 in * by lia. rewrite Z.pow_0_r, Z.mul_1_r in *.
    set (j := -59 - ex) in *.
    assert (Hj : 0 < j) by lia.
    assert (Hpj : 0 < 2 ^ j) by (apply Z.pow_pos_nonneg; lia).
    assert (Hd1 : 53 + j <= d).
    { assert (52 + j < d); [ | lia ].
      apply pow2_lt_digits; [ lia | ].
      eapply Z.le_lt_trans; [ | exact Hhi ].
      rewrite Z.pow_add_r by lia. nia. }
    assert (Hd2 : d <= 54 + j).
    { assert (d - 1 < 54 + j); [ | lia ].
      apply pow2_lt_digits; [ lia | ].
      eapply Z.le_lt_trans; [ exact Hlo | ].
      replace (54 + j) with (1 + (53 + j)) by lia.
      rewrite (Z.pow_add_r 2 1), (Z.pow_add_r 2 53) by lia.
      change (2 ^ 1) with 2.
      assert (2 ^ 53 <= 2 ^ 53 * 2 ^ j) by nia. nia. }
    destruct (binary_round_pos (a + b) ex) as (m' & [[-> Hm'] | ->]);
      fold d; try lia; unfold SFltb, SFcompare.
    + destruct (Z.compare_spec ex (d + ex - 53)) as [Heq | Hlt | Hgt];
        [ lia | reflexivity | lia ].
    + destruct (Z.compare_spec ex (d + ex - 53 + 1)) as [Heq | Hlt | Hgt];
        [ lia | reflexivity | lia ].
Qed.

Lemma Prim2SF_min_duration :
  Prim2SF min_duration = S754_finite false min_duration_mantissa (-59).
Proof.
  vm_compute. reflexivity.
Qed.

Lemma Prim2SF_horizon : Prim2SF horizon = S754_finite false (2 ^ 52) (-6).
Proof.
  vm_compute. reflexivity.
Qed.

Lemma Prim2SF_zero : Prim2SF 0%float = S754_zero false.
Proof.
  vm_compute. reflexivity.
Qed.

(** A start from zero up to the horizon is below itself plus [0.01]. *)
Lemma early_start_moves (s : float) :
  PrimFloat.leb 0 s = true -> PrimFloat.ltb s horizon = true ->
  PrimFloat.ltb s (PrimFloat.add s min_duration) = true.
Proof.
  rewrite leb_spec, !ltb_spec, add_spec.
  rewrite Prim2SF_zero, Prim2SF_horizon, Prim2SF_min_duration.
  pose proof (Prim2SF_valid s) as Hvalid.
  destruct (Prim2SF s) as [sx | sx | | sx mx ex]; cbn [valid_binary] in Hvalid.
  - intros _ _. reflexivity.
  - destruct sx; discriminate.
  - discriminate.
  - destruct sx; [ discriminate | ]. intros _ Hlt.
    apply SFadd_small; [ exact Hvalid | ].
    destruct (bounded_canonical mx ex Hvalid) as (_ & _ & Hnormal).
    pose proof (digits2_bounds mx) as [Hmlo _].
    unfold SFltb, SFcompare in Hlt.
    destruct (Z.compare_spec ex (-6)) as [Heq | Hlt' | Hgt];
      [ | lia | discriminate ].
    rewrite Pos.compare_cont_spec in Hlt. cbn [Pos.switch_Eq] in Hlt.
    destruct (Pos.compare_spec mx (2 ^ 52)) as [ | Hm | ]; try discriminate.
    rewrite (Hnormal ltac:(lia)) in Hmlo. change (53 - 1) with 52 in Hmlo.
    apply Pos2Z.pos_lt_pos in Hm.
    change (Zpos (2 ^ 52)) with (2 ^ 52) in Hm. lia.
Qed.

End Binary64.

(** ** Lemmas on the builtins *)

Lemma bind_Ok (A B : Type) (m : outcome A) (k : A -> outcome B) (b : B) :
  bind m k = Ok b -> exists a, m = Ok a /\ k a = Ok b.
Proof.
  destruct m as [a | e]; simpl; intros H; [ eauto | discriminate ].
Qed.

Lemma rstrip_head (c : ascii) (s : string) :
  isspace c = false -> exists r, rstrip (String c s) = String c r.
Proof.
  intros Hc. simpl. destruct (rstrip s); rewrite ?Hc; eauto.
Qed.

Lemma rstrip_idem (s : string) : rstrip (rstrip s) = rstrip s.
Proof.
  induction s as [| c s IH]; simpl; [ reflexivity | ].
  destruct (rstrip s) as [| c' r] eqn:Hr.
  - destruct (isspace c) eqn:Hc; simpl; rewrite ?Hc; reflexivity.
  - change (rstrip (String c (String c' r)))
      with (match rstrip (String c' r) with
            | EmptyString => if isspace c then EmptyString else String c EmptyString
            | String a b => String c (String a b)
            end).
    rewrite IH. reflexivity.
Qed.

Lemma lstrip_head (s : string) :
  lstrip s = EmptyString
  \/ exists c r, lstrip s = String c r /\ isspace c = false.
Proof.
  induction s as [| c s IH]; simpl; [ auto | ].
  destruct (isspace c) eqn:Hc; [ exact IH | right; eauto ].
Qed.

Lemma strip_idem (s : string) : strip (strip s) = strip s.
Proof.
  unfold strip. destruct (lstrip_head s) as [-> | (c & r & -> & Hc)].
  - reflexivity.
  - destruct (rstrip_head c r Hc) as [r' Hr']. rewrite Hr'. simpl lstrip.
    rewrite Hc, <- Hr'. apply rstrip_idem.
Qed.

Lemma eqb_false_length (t : string) :
  String.eqb t EmptyString = false -> 1 <= String.length t.
Proof.
  destruct t; simpl; [ discriminate | lia ].
Qed.

(** A start below the end is not equal to it: the comparisons of binary64. *)
Lemma ltb_not_eqb (s e : float) :
  PrimFloat.ltb s e = true -> PrimFloat.eqb s e = false.
Proof.
  rewrite ltb_spec, eqb_spec. unfold SFltb, SFeqb.
  destruct (SFcompare (Prim2SF s) (Prim2SF e)) as [[ | | ] |];
    intros H; try reflexivity; discriminate.
Qed.

Lemma span_ordered (s e : float) :
  PrimFloat.ltb s e = true -> span s e = {| start := s; end_ := e |}.
Proof.
  intros H. unfold span. rewrite (ltb_not_eqb _ _ H). reflexivity.
Qed.

Lemma span_degenerate (s e : float) :
  PrimFloat.eqb s e = true ->
  span s e = {| start := s; end_ := PrimFloat.add s min_duration |}.
Proof.
  intros H. unfold span. rewrite H. reflexivity.
Qed.

Lemma span_increasing (s e : float) :
  correctable s e = true -> increasing (span s e) = true.
Proof.
  unfold correctable, increasing. intros H.
  apply orb_true_iff in H. destruct H as [H | H].
  - rewrite (span_ordered _ _ H). exact H.
  - apply andb_true_iff in H. destruct H as [H Hhorizon].
    apply andb_true_iff in H. destruct H as [He Hzero].
    rewrite (span_degenerate _ _ He). cbn [start end_].
    apply early_start_moves; assumption.
Qed.

(** ** The loop over the word records *)

Lemma words_loop_acc (word_entries : list pyval) (acc : list Word) :
  words_loop word_entries acc
  = (ws <- words_loop word_entries [] ;; Ok (acc ++ ws)).
Proof.
  revert acc.
  induction word_entries as [| word_entry rest IH]; intros acc; simpl.
  - rewrite app_nil_r. reflexivity.
  - destruct (word_of_entry word_entry) as [[word |] | ex]; simpl.
    + rewrite (IH (acc ++ [word])), (IH [word]).
      destruct (words_loop rest []); simpl; [ | reflexivity ].
      rewrite <- app_assoc. reflexivity.
    + apply IH.
    + reflexivity.
Qed.

Lemma word_of_entry_Ok (word_entry : pyval) (r : option Word) :
  word_of_entry word_entry = Ok r ->
  match r with
  | Some word => spoken word_entry = true /\ word_from word_entry word
  | None => spoken word_entry = false
  end.
Proof.
  unfold word_of_entry, spoken, word_from, word_text, record_span, numeric_field.
  destruct word_entry as [ | | | | | | d]; simpl; try discriminate.
  unfold dict_getitem.
  destruct (dict_get "word" d) as [w |]; simpl; [ | discriminate ].
  destruct (String.eqb (strip (py_str w)) EmptyString) eqn:Hblank; simpl.
  - intros H. injection H as <-. reflexivity.
  - destruct (dict_get "start" d) as [vs |]; simpl; [ | discriminate ].
    destruct (py_float vs) as [fs | ex]; simpl; [ | discriminate ].
    destruct (dict_get "end" d) as [ve |]; simpl; [ | discriminate ].
    destruct (py_float ve) as [fe | ex]; simpl; [ | discriminate ].
    intros H. injection H as <-. split; [ reflexivity | ].
    exists (strip (py_str w)), fs, fe. auto.
Qed.

Lemma words_loop_Ok (word_entries : list pyval) (ws : list Word) :
  words_loop word_entries [] = Ok ws ->
  Forall2 word_from (filter spoken word_entries) ws.
Proof.
  revert ws.
  induction word_entries as [| word_entry rest IH]; intros ws; simpl.
  - intros H. injection H as <-. constructor.
  - intros H. apply bind_Ok in H. destruct H as (r & Hr & H).
    apply word_of_entry_Ok in Hr.
    rewrite words_loop_acc in H. apply bind_Ok in H.
    destruct H as (ws' & Hws' & H). specialize (IH _ Hws').
    destruct r as [word |].
    + destruct Hr as [-> Hword]. injection H as <-.
      constructor; assumption.
    + rewrite Hr. injection H as <-. exact IH.
Qed.

Lemma word_of_entry_sound (word_entry : pyval) :
  is_ok (word_of_entry word_entry) = sound_word word_entry.
Proof.
  unfold word_of_entry, sound_word, record_span, numeric_field.
  destruct word_entry as [ | | | | | | d]; simpl; try reflexivity.
  unfold dict_getitem.
  destruct (dict_get "word" d) as [w |]; simpl; [ | reflexivity ].
  destruct (String.eqb (strip (py_str w)) EmptyString); simpl; [ reflexivity | ].
  destruct (dict_get "start" d) as [vs |]; simpl; [ | reflexivity ].
  destruct (py_float vs) as [fs | ex]; simpl; [ | reflexivity ].
  destruct (dict_get "end" d) as [ve |]; simpl; [ | reflexivity ].
  destruct (py_float ve) as [fe | ex]; reflexivity.
Qed.

Lemma words_loop_sound (word_entries : list pyval) (acc : list Word) :
  is_ok (words_loop word_entries acc) = forallb sound_word word_entries.
Proof.
  revert acc.
  induction word_entries as [| word_entry rest IH]; intros acc; simpl.
  - reflexivity.
  - rewrite <- word_of_entry_sound.
    destruct (word_of_entry word_entry) as [r | ex]; simpl; [ apply IH | reflexivity ].
Qed.

(** ** The loop over the segment records *)

Lemma segments_loop_acc (segment_infos : list pyval) (acc : list Segment) :
  segments_loop segment_infos acc
  = (segs <- segments_loop segment_infos [] ;; Ok (acc ++ segs)).
Proof.
  revert acc.
  induction segment_infos as [| segment_info rest IH]; intros acc; simpl.
  - rewrite app_nil_r. reflexivity.
  - destruct (segment_of_info segment_info) as [[segment |] | ex]; simpl.
    + rewrite (IH (acc ++ [segment])), (IH [segment]).
      destruct (segments_loop rest []); simpl; [ | reflexivity ].
      rewrite <- app_assoc. reflexivity.
    + apply IH.
    + reflexivity.
Qed.

Lemma segment_of_info_Ok (segment_info : pyval) (r : option Segment) :
  segment_of_info segment_info = Ok r ->
  match r with
  | Some segment =>
      usable_words segment_info = true /\ segment_from segment_info segment
  | None => usable_words segment_info = false
  end.
Proof.
  unfold segment_of_info, segment_from, kept_words, word_records.
  destruct segment_info as [ | | | | | | d]; simpl; try discriminate.
  unfold segment_of_dict, dict_getitem, dict_contains, numeric_field.
  destruct (dict_get "start" d) as [vs |]; simpl; [ | discriminate ].
  destruct (py_float vs) as [fs | ex]; simpl; [ | discriminate ].
  destruct (dict_get "end" d) as [ve |]; simpl; [ | discriminate ].
  destruct (py_float ve) as [fe | ex]; simpl; [ | discriminate ].
  destruct (dict_get "words" d) as [ws |]; simpl.
  - destruct ws as [ | | | | | word_entries | ]; simpl;
      try (destruct (dict_get "text" d); simpl; [ | discriminate ];
           intros H; injection H as <-; reflexivity).
    intros H. apply bind_Ok in H. destruct H as (line_words & Hloop & H).
    injection H as <-. split; [ reflexivity | ].
    exists fs, fe, line_words. repeat split.
    apply words_loop_Ok. exact Hloop.
  - destruct (dict_get "text" d); simpl; [ | discriminate ].
    intros H; injection H as <-; reflexivity.
Qed.

Lemma segments_loop_Ok (segment_infos : list pyval) (segs : list Segment) :
  segments_loop segment_infos [] = Ok segs ->
  Forall2 segment_from (filter usable_words segment_infos) segs.
Proof.
  revert segs.
  induction segment_infos as [| segment_info rest IH]; intros segs; simpl.
  - intros H. injection H as <-. constructor.
  - intros H. apply bind_Ok in H. destruct H as (r & Hr & H).
    apply segment_of_info_Ok in Hr.
    rewrite segments_loop_acc in H. apply bind_Ok in H.
    destruct H as (segs' & Hsegs' & H). specialize (IH _ Hsegs').
    destruct r as [segment |].
    + destruct Hr as [-> Hsegment]. injection H as <-.
      constructor; assumption.
    + rewrite Hr. injection H as <-. exact IH.
Qed.

Lemma segment_of_info_sound (segment_info : pyval) :
  is_ok (segment_of_info segment_info) = sound_segment segment_info.
Proof.
  unfold segment_of_info, sound_segment, record_span, numeric_field.
  destruct segment_info as [ | | | | | | d]; simpl; try reflexivity.
  unfold segment_of_dict, dict_getitem, dict_contains.
  destruct (dict_get "start" d) as [vs |]; simpl; [ | reflexivity ].
  destruct (py_float vs) as [fs | ex]; simpl; [ | reflexivity ].
  destruct (dict_get "end" d) as [ve |]; simpl; [ | reflexivity ].
  destruct (py_float ve) as [fe | ex]; simpl; [ | reflexivity ].
  destruct (dict_get "words" d) as [ws |]; simpl.
  - destruct ws as [ | | | | | word_entries | ]; simpl;
      try (destruct (dict_get "text" d); reflexivity).
    rewrite <- (words_loop_sound word_entries []).
    destruct (words_loop word_entries []); reflexivity.
  - destruct (dict_get "text" d); reflexivity.
Qed.

Lemma segments_loop_sound (segment_infos : list pyval) (acc : list Segment) :
  is_ok (segments_loop segment_infos acc) = forallb sound_segment segment_infos.
Proof.
  revert acc.
  induction segment_infos as [| segment_info rest IH]; intros acc; simpl.
  - reflexivity.
  - rewrite <- segment_of_info_sound.
    destruct (segment_of_info segment_info) as [r | ex]; simpl;
      [ apply IH | reflexivity ].
Qed.

(** ** The document of a result *)

(** The segments of the document come, in order, from the segment records
    that have a list of words. *)
Lemma normalize_Ok (result : dict) (document : Document) :
  normalize result = Ok document ->
  Forall2 segment_from (kept_segments result) (segments document).
Proof.
  unfold normalize, kept_segments, segment_records, dict_contains, dict_getitem.
  destruct (dict_get "segments" result) as [segs |]; simpl.
  - destruct (truthy segs) eqn:Htruthy; simpl.
    + destruct segs as [ | | | | s | segment_infos | d]; simpl; try discriminate.
      * destruct s; simpl; discriminate.
      * intros H. apply bind_Ok in H. destruct H as (doc_segments & Hloop & H).
        injection H as <-. simpl. apply segments_loop_Ok. exact Hloop.
      * destruct d; simpl; discriminate.
    + intros H. injection H as <-. simpl.
      destruct segs as [ | | | | | segment_infos | ]; try constructor.
      destruct segment_infos; [ constructor | discriminate ].
  - intros H. injection H as <-. constructor.
Qed.

Lemma normalize_sound (result : dict) :
  is_ok (normalize result) = sound result.
Proof.
  unfold normalize, sound, dict_contains, dict_getitem.
  destruct (dict_get "segments" result) as [segs |]; simpl; [ | reflexivity ].
  destruct (truthy segs) eqn:Htruthy; simpl; [ | reflexivity ].
  destruct segs as [ | | | | s | segment_infos | d]; simpl; try reflexivity.
  - destruct s; [ discriminate | reflexivity ].
  - rewrite <- (segments_loop_sound segment_infos []).
    destruct (segments_loop segment_infos []); reflexivity.
  - destruct d; [ discriminate | reflexivity ].
Qed.

(** ** From the records to the fragments *)

Lemma Forall2_impl_In (A B : Type) (P Q : A -> B -> Prop)
    (l1 : list A) (l2 : list B) :
  Forall2 P l1 l2 ->
  (forall a b, In a l1 -> P a b -> Q a b) ->
  Forall2 Q l1 l2.
Proof.
  induction 1 as [| a b l1 l2 Hab _ IH]; intros Himpl; constructor.
  - apply Himpl; [ left; reflexivity | exact Hab ].
  - apply IH. intros a' b' Hin. apply Himpl. right. exact Hin.
Qed.

Lemma Forall2_In_r (A B : Type) (P : A -> B -> Prop)
    (l1 : list A) (l2 : list B) (b : B) :
  Forall2 P l1 l2 -> In b l2 -> exists a, In a l1 /\ P a b.
Proof.
  induction 1 as [| a b' l1 l2 Hab _ IH]; simpl; intros Hin; [ contradiction | ].
  destruct Hin as [<- | Hin].
  - exists a. auto.
  - destruct (IH Hin) as (a' & Ha' & HP). exists a'. auto.
Qed.

Lemma segment_from_times (R : float -> float -> TimeFragment -> Prop)
    (segment_info : pyval) (segment : Segment) :
  segment_from segment_info segment ->
  (forall s e, record_span segment_info = Some (s, e) -> R s e (span s e)) ->
  (forall word_entry s e,
      In word_entry (word_records segment_info) ->
      record_span word_entry = Some (s, e) -> R s e (span s e)) ->
  times_from R segment_info segment.
Proof.
  intros (s & e & ws & Hspan & -> & Hws) Hseg Hword.
  unfold times_from, span_rel, segment_words; simpl.
  split; [ | split ].
  - exists s, e. auto.
  - constructor; [ | constructor ]. exists s, e. auto.
  - rewrite app_nil_r. apply (Forall2_impl_In _ _ _ _ _ _ Hws).
    intros word_entry word Hin (t & s' & e' & _ & Hspan' & ->). simpl.
    exists s', e'. split; [ exact Hspan' | ].
    apply (Hword word_entry); [ | exact Hspan' ].
    unfold kept_words in Hin. apply filter_In in Hin. apply Hin.
Qed.

Lemma kept_segments_In (result : dict) (segment_info : pyval) :
  In segment_info (kept_segments result) ->
  In segment_info (segment_records result).
Proof.
  unfold kept_segments. intros Hin. apply filter_In in Hin. apply Hin.
Qed.

Lemma all_spans_segment (P : float -> float -> bool) (result : dict)
    (segment_info : pyval) (s e : float) :
  all_spans P result = true ->
  In segment_info (segment_records result) ->
  record_span segment_info = Some (s, e) -> P s e = true.
Proof.
  unfold all_spans, records. intros Hall Hin Hspan.
  rewrite forallb_forall in Hall.
  specialize (Hall segment_info). rewrite Hspan in Hall. apply Hall.
  apply in_flat_map. exists segment_info. split; [ exact Hin | left; reflexivity ].
Qed.

Lemma all_spans_word (P : float -> float -> bool) (result : dict)
    (segment_info word_entry : pyval) (s e : float) :
  all_spans P result = true ->
  In segment_info (segment_records result) ->
  In word_entry (word_records segment_info) ->
  record_span word_entry = Some (s, e) -> P s e = true.
Proof.
  unfold all_spans, records. intros Hall Hin Hword Hspan.
  rewrite forallb_forall in Hall.
  specialize (Hall word_entry). rewrite Hspan in Hall. apply Hall.
  apply in_flat_map. exists segment_info. split; [ exact Hin | right; exact Hword ].
Qed.

(** What [R] says of every span of a result it says of the fragments of
    its document. *)
Lemma normalize_times (R : float -> float -> TimeFragment -> Prop)
    (P : float -> float -> bool) (result : dict) (document : Document) :
  (forall s e, P s e = true -> R s e (span s e)) ->
  normalize result = Ok document ->
  all_spans P result = true ->
  Forall2 (times_from R) (kept_segments result) (segments document).
Proof.
  intros HR Hnorm Hall. apply normalize_Ok in Hnorm.
  apply (Forall2_impl_In _ _ _ _ _ _ Hnorm).
  intros segment_info segment Hin Hfrom. apply kept_segments_In in Hin.
  apply segment_from_times; [ exact Hfrom | | ].
  - intros s e Hspan. apply HR.
    exact (all_spans_segment P result segment_info s e Hall Hin Hspan).
  - intros word_entry s e Hword Hspan. apply HR.
    exact (all_spans_word P result segment_info word_entry s e Hall Hin Hword Hspan).
Qed.

Lemma all_spans_true (result : dict) : all_spans (fun _ _ => true) result = true.
Proof.
  unfold all_spans. apply forallb_forall. intros record _.
  destruct (record_span record) as [[s e] |]; reflexivity.
Qed.

Lemma times_fragments (Q : TimeFragment -> bool)
    (segment_infos : list pyval) (segs : list Segment) :
  Forall2 (times_from (fun _ _ t => Q t = true)) segment_infos segs ->
  forallb Q (fragments {| segments := segs |}) = true.
Proof.
  unfold fragments; simpl.
  induction 1 as [| segment_info segment infos segs Htimes _ IH]; simpl;
    [ reflexivity | ].
  destruct Htimes as ((s & e & _ & Hseg) & Hlines & Hwords).
  rewrite Hseg, forallb_app, IH, andb_true_r. simpl.
  apply forallb_forall. intros t Ht.
  apply in_flat_map in Ht. destruct Ht as (line & Hline & Ht).
  destruct Ht as [<- | Ht].
  - rewrite Forall_forall in Hlines.
    destruct (Hlines line Hline) as (s' & e' & _ & HQ). exact HQ.
  - apply in_map_iff in Ht. destruct Ht as (word & <- & Hword).
    assert (Hin : In word (segment_words segment)).
    { unfold segment_words. apply in_flat_map. exists line. auto. }
    destruct (Forall2_In_r _ _ _ _ _ _ Hwords Hin)
      as (word_entry & _ & s' & e' & _ & HQ).
    exact HQ.
Qed.

(** ** Loops over a concatenation *)

Lemma words_loop_app (a b : list pyval) (acc : list Word) :
  words_loop (a ++ b) acc = (ws <- words_loop a acc ;; words_loop b ws).
Proof.
  revert acc. induction a as [| word_entry a IH]; intros acc; simpl.
  - reflexivity.
  - destruct (word_of_entry word_entry) as [r | ex]; simpl;
      [ apply IH | reflexivity ].
Qed.

Lemma segments_loop_app (a b : list pyval) (acc : list Segment) :
  segments_loop (a ++ b) acc = (segs <- segments_loop a acc ;; segments_loop b segs).
Proof.
  revert acc. induction a as [| segment_info a IH]; intros acc; simpl.
  - reflexivity.
  - destruct (segment_of_info segment_info) as [r | ex]; simpl;
      [ apply IH | reflexivity ].
Qed.

Lemma words_loop_cons (word_entry : pyval) (rest : list pyval) (acc : list Word) :
  words_loop (word_entry :: rest) acc
  = (r <- word_of_entry word_entry ;;
     words_loop rest match r with
                     | Some word => acc ++ [word]
                     | None => acc
                     end).
Proof.
  reflexivity.
Qed.

Lemma segments_loop_cons (segment_info : pyval) (rest : list pyval)
    (acc : list Segment) :
  segments_loop (segment_info :: rest) acc
  = (r <- segment_of_info segment_info ;;
     segments_loop rest match r with
                        | Some segment => acc ++ [segment]
                        | None => acc
                        end).
Proof.
  reflexivity.
Qed.

Lemma normalize_raw_result (segment_infos : list pyval) :
  segment_infos <> [] ->
  normalize (raw_result segment_infos)
  = (doc_segments <- segments_loop segment_infos [] ;;
     Ok {| segments := doc_segments |}).
Proof.
  intros Hne. destruct segment_infos; [ contradiction | reflexivity ].
Qed.

Lemma segment_of_with_words (fields : dict) (word_entries : list pyval) :
  segment_of_info (with_words fields word_entries)
  = (s <- dict_getitem fields "start" ;;
     segment_start <- py_float s ;;
     e <- dict_getitem fields "end" ;;
     segment_end <- py_float e ;;
     line_words <- words_loop word_entries [] ;;
     Ok (Some {| segment_time := span segment_start segment_end;
                 lines := [ {| line_time := span segment_start segment_end;
                               words := line_words |} ] |})).
Proof.
  reflexivity.
Qed.

Lemma segment_of_with_words_ext (fields : dict) (ws ws' : list pyval) :
  words_loop ws [] = words_loop ws' [] ->
  segment_of_info (with_words fields ws) = segment_of_info (with_words fields ws').
Proof.
  intros H. rewrite !segment_of_with_words.
  destruct (dict_getitem fields "start") as [s | ex]; simpl; [ | reflexivity ].
  destruct (py_float s) as [fs | ex]; simpl; [ | reflexivity ].
  destruct (dict_getitem fields "end") as [e | ex]; simpl; [ | reflexivity ].
  destruct (py_float e) as [fe | ex]; simpl; [ | reflexivity ].
  rewrite H. reflexivity.
Qed.

Lemma append_assoc (a b c : string) :
  ((a ++ b) ++ c)%string = (a ++ b ++ c)%string.
Proof.
  induction a as [| ch a IH]; simpl; [ reflexivity | rewrite IH; reflexivity ].
Qed.

(** ** The engine *)

(** [transcribe] hands the result of the engine to the normalizer. *)
Lemma transcribe_normalize (self self1 : WhisperAudioTranscriber Model)
    (audio_path : string) (w w1 w2 : World) (model : Model) (result : dict) :
  _get_model self w = (Ok model, self1, w1) ->
  model_transcribe model audio_path (_language self1) w1 = (inl result, w2) ->
  transcribe self audio_path w = (normalize result, self1, w2).
Proof.
  intros Hmodel Hresult. unfold transcribe. rewrite Hmodel, Hresult. reflexivity.
Qed.

(** A document returned by [transcribe] is the document of the result the
    model returned. *)
Lemma transcribe_Ok (self self1 : WhisperAudioTranscriber Model)
    (audio_path : string) (w w2 : World) (document : Document) :
  transcribe self audio_path w = (Ok document, self1, w2) ->
  exists model w1 result,
    _get_model self w = (Ok model, self1, w1)
    /\ model_transcribe model audio_path (_language self1) w1 = (inl result, w2)
    /\ normalize result = Ok document.
Proof.
  unfold transcribe.
  destruct (_get_model self w) as [[[model | ex] self'] w1]; [ | discriminate ].
  destruct (model_transcribe model audio_path (_language self') w1)
    as [[result | ex] w2'] eqn:Hengine; [ | discriminate ].
  intros H. injection H as Hdoc <- <-.
  exists model, w1, result. rewrite Hengine. auto.
Qed.

(** A model given to the constructor is used as it is: nothing is imported
    or loaded. *)
Lemma _get_model_supplied (self : WhisperAudioTranscriber Model) (w : World)
    (m : Model) :
  model_found self = Some m -> _get_model self w = (Ok m, self, w).
Proof.
  intros H. unfold _get_model. rewrite H. reflexivity.
Qed.

(** A loaded model is kept for the next call. *)
Lemma _get_model_loaded (self : WhisperAudioTranscriber Model) (w w1 w2 : World)
    (m : Model) :
  model_found self = None ->
  import_whisper w = (None, w1) ->
  load_model (_model_size self) (device_argument self) w1 = (inl m, w2) ->
  _get_model self w = (Ok m, set_model self m, w2).
Proof.
  intros Hnone Himport Hload. unfold _get_model.
  rewrite Hnone, Himport, Hload. reflexivity.
Qed.

(** The import stands outside the [try]: what it raises goes to the caller
    as it is. *)
Lemma _get_model_import_fails (self : WhisperAudioTranscriber Model)
    (w w1 : World) (e : engine_exn) :
  model_found self = None ->
  import_whisper w = (Some e, w1) ->
  _get_model self w = (Raise (FromEngine e), self, w1).
Proof.
  intros Hnone Himport. unfold _get_model. rewrite Hnone, Himport. reflexivity.
Qed.

(** ** The properties of the document *)

(** C1 (amended).  When [transcribe] returns a document, its segments are,
    in order, those of the segment records that have a list of words, one
    segment for each such record; a record whose [words] is absent or not a
    list is skipped by the [continue] of line 51 and has no segment. *)
Theorem segments_follow_records_with_words (result : dict)
    (document : Document) :
  normalize result = Ok document ->
  List.length (segments document) = List.length (kept_segments result)
  /\ Forall2 segment_from (kept_segments result) (segments document).
Proof.
  intros Hnorm. apply normalize_Ok in Hnorm. split; [ | exact Hnorm ].
  symmetry. exact (Forall2_length Hnorm).
Qed.

(** C2 (amended).  [transcribe] returns a document exactly on the sound
    results: [segments] absent, false, or a list of dicts whose [start] and
    [end] are accepted by [float] and which have either a list of word
    records, each a dict with a [word] and, unless its trimmed text is
    empty, a [start] and an [end] accepted by [float], or else a [text].
    So a missing or non-list [words] and a [word] that is not a string
    raise nothing; a missing or non-numeric [start] or [end], a missing
    [word], and a missing [text] where there is no list of words raise. *)
Theorem normalize_returns_iff_sound (result : dict) :
  sound result = true <-> exists document, normalize result = Ok document.
Proof.
  rewrite <- normalize_sound.
  destruct (normalize result) as [document | ex]; simpl; split.
  - intros _. exists document. reflexivity.
  - reflexivity.
  - discriminate.
  - intros [document H]. discriminate.
Qed.

(** C3 (amended).  Every fragment of the document (of a segment, a line, a
    word) has [end > start], provided each start and end of the result is
    correctable: the start is below the end, or equals it and lies from zero
    up to the horizon of two to the 46 seconds, where adding [0.01] gives a
    greater number.  A span that ends before it starts is left as it is. *)
Theorem fragments_increasing (result : dict) (document : Document) :
  normalize result = Ok document ->
  all_spans correctable result = true ->
  forallb increasing (fragments document) = true.
Proof.
  intros Hnorm Hall. destruct document as [segs].
  apply (times_fragments increasing (kept_segments result)).
  apply (normalize_times _ correctable result _ span_increasing Hnorm Hall).
Qed.

(** C4.  The fragment built for a record whose coerced start equals its
    coerced end runs from the start to the start plus [0.01].  Every segment
    record with a list of words and every word record with a text has its
    fragment in the document, and where its start equals its end that
    fragment is the corrected one: the segment, its line and the word alike.
    Which records are kept does not depend on their spans. *)
Theorem degenerate_spans_corrected (result : dict) (document : Document) :
  normalize result = Ok document ->
  (forall s e, corrected s e (span s e))
  /\ Forall2 (times_from corrected) (kept_segments result) (segments document).
Proof.
  intros Hnorm.
  assert (Hspan : forall s e, corrected s e (span s e)).
  { intros s e. unfold corrected. apply span_degenerate. }
  split; [ exact Hspan | ].
  apply (normalize_times corrected (fun _ _ => true) result document);
    [ | exact Hnorm | apply all_spans_true ].
  intros s e _. apply Hspan.
Qed.

(** C5.  The text of every word of the document is trimmed and at least
    one character long, and the words of a segment are, in order, the
    trimmed texts of its word records that are not blank: a blank word
    record is passed over and the words around it stay. *)
Theorem words_trimmed_nonblank (result : dict) (document : Document) :
  normalize result = Ok document ->
  Forall (fun segment =>
            Forall (fun word => strip (text word) = text word
                                /\ 1 <= String.length (strip (text word)))
                   (segment_words segment))
         (segments document)
  /\ Forall2 (fun segment_info segment =>
                Forall2 (fun word_entry word =>
                           word_text word_entry = Some (text word))
                        (kept_words segment_info) (segment_words segment))
             (kept_segments result) (segments document).
Proof.
  intros Hnorm. apply normalize_Ok in Hnorm. split.
  - apply Forall_forall. intros segment Hin.
    destruct (Forall2_In_r _ _ _ _ _ _ Hnorm Hin)
      as (segment_info & _ & s & e & ws & _ & -> & Hws).
    unfold segment_words; simpl. rewrite app_nil_r.
    apply Forall_forall. intros word Hword.
    destruct (Forall2_In_r _ _ _ _ _ _ Hws Hword)
      as (word_entry & Hkept & t & s' & e' & Htext & _ & ->).
    simpl. unfold kept_words in Hkept. apply filter_In in Hkept.
    destruct Hkept as [_ Hspoken]. unfold spoken in Hspoken.
    rewrite Htext in Hspoken. apply negb_true_iff in Hspoken.
    assert (Hstrip : strip t = t).
    { unfold word_text in Htext. destruct word_entry; try discriminate.
      destruct (dict_get "word" d); [ | discriminate ].
      injection Htext as <-. apply strip_idem. }
    rewrite Hstrip. split; [ reflexivity | ].
    apply eqb_false_length. exact Hspoken.
  - apply (Forall2_impl_In _ _ _ _ _ _ Hnorm).
    intros segment_info segment _ (s & e & ws & _ & -> & Hws).
    unfold segment_words; simpl. rewrite app_nil_r.
    apply (Forall2_impl_In _ _ _ _ _ _ Hws).
    intros word_entry word _ (t & s' & e' & Htext & _ & ->). exact Htext.
Qed.

(** C6.  A result with no [segments] key, or with an empty [segments]
    list, gives the empty document, and nothing is raised. *)
Theorem no_segments_empty_document (result : dict) :
  dict_get "segments" result = None
  \/ dict_get "segments" result = Some (PList []) ->
  normalize result = Ok {| segments := [] |}.
Proof.
  unfold normalize, dict_contains. intros [-> | ->]; reflexivity.
Qed.

(** C7.  Where every segment record and every word record of the result
    has its start below its end, the fragments of the document are the
    starts and ends of the records as they stand. *)
Theorem ordered_spans_unchanged (result : dict) (document : Document) :
  normalize result = Ok document ->
  all_spans PrimFloat.ltb result = true ->
  Forall2 (times_from unchanged) (kept_segments result) (segments document).
Proof.
  intros Hnorm Hall.
  apply (normalize_times unchanged PrimFloat.ltb result document);
    [ | exact Hnorm | exact Hall ].
  intros s e Hlt. unfold unchanged. apply span_ordered. exact Hlt.
Qed.

(** C8.  Every segment of the document has exactly one line, whose
    fragment is the fragment of the segment, and the words of that line
    come from the kept word records of the segment record in their order in
    the record. *)
Theorem one_line_per_segment (result : dict) (document : Document) :
  normalize result = Ok document ->
  Forall (fun segment =>
            exists line,
              lines segment = [line] /\ line_time line = segment_time segment)
         (segments document)
  /\ Forall2 (fun segment_info segment =>
                exists line,
                  lines segment = [line]
                  /\ Forall2 word_from (kept_words segment_info) (words line))
             (kept_segments result) (segments document).
Proof.
  intros Hnorm. apply normalize_Ok in Hnorm. split.
  - apply Forall_forall. intros segment Hin.
    destruct (Forall2_In_r _ _ _ _ _ _ Hnorm Hin)
      as (segment_info & _ & s & e & ws & _ & -> & _).
    simpl. eexists. split; reflexivity.
  - apply (Forall2_impl_In _ _ _ _ _ _ Hnorm).
    intros segment_info segment _ (s & e & ws & _ & -> & Hws).
    simpl. eexists. split; [ reflexivity | exact Hws ].
Qed.

(** C9 (amended).  With no model that line 75 finds, once the package is
    imported, when [whisper.load_model] raises an [Exception], [_get_model]
    raises a [RuntimeError] whose message holds the model size and the device,
    and [transcribe] raises it too instead of returning a document; the world
    is left as the one failed call left it, so the load is made once and not
    again.  What a failing import does is not part of this statement. *)
Theorem load_failure_raises (self : WhisperAudioTranscriber Model)
    (w w1 w2 : World) (msg : string) :
  model_found self = None ->
  import_whisper w = (None, w1) ->
  load_model (_model_size self) (device_argument self) w1
    = (inr (EngineException msg), w2) ->
  exists message,
    _get_model self w = (Raise (RuntimeError message), self, w2)
    /\ contains (_model_size self) message
    /\ contains (format_device (_device self)) message
    /\ forall audio_path,
         transcribe self audio_path w = (Raise (RuntimeError message), self, w2).
Proof.
  intros Hnone Himport Hload.
  assert (Hget : _get_model self w
                 = (Raise (RuntimeError (load_error_message self msg)), self, w2)).
  { unfold _get_model. rewrite Hnone, Himport, Hload. reflexivity. }
  exists (load_error_message self msg). repeat split.
  - exact Hget.
  - unfold contains, load_error_message. eexists. eexists. reflexivity.
  - unfold contains, load_error_message.
    exists ("Error loading Whisper model (size: " ++ _model_size self
            ++ ", device: ")%string.
    eexists. rewrite !append_assoc. reflexivity.
  - intros audio_path. unfold transcribe. rewrite Hget. reflexivity.
Qed.

(** C10.  A word record whose [word] trims to the empty string is passed
    over before its [start] and [end] are looked at: the turn of the loop
    ends with nothing raised and no word, whatever those fields are, and the
    document is the one of the result without that record. *)
Theorem blank_word_skipped_unread (d : dict) (w : pyval) :
  dict_get "word" d = Some w ->
  strip (py_str w) = EmptyString ->
  word_of_entry (PDict d) = Ok None
  /\ forall (before after : list pyval) (fields : dict) (pre post : list pyval),
       normalize
         (raw_result (before ++ with_words fields (pre ++ PDict d :: post) :: after))
       = normalize
           (raw_result (before ++ with_words fields (pre ++ post) :: after)).
Proof.
  intros Hword Hblank.
  assert (Hskip : word_of_entry (PDict d) = Ok None).
  { unfold word_of_entry, getitem, dict_getitem. rewrite Hword. simpl.
    rewrite Hblank. reflexivity. }
  split; [ exact Hskip | ].
  intros before after fields pre post.
  rewrite !normalize_raw_result by (destruct before; discriminate).
  assert (Hwords : words_loop (pre ++ PDict d :: post) []
                   = words_loop (pre ++ post) []).
  { rewrite !words_loop_app.
    destruct (words_loop pre []) as [ws | ex]; simpl; [ | reflexivity ].
    rewrite Hskip. reflexivity. }
  rewrite !segments_loop_app.
  destruct (segments_loop before []) as [segs | ex]; cbn [bind]; [ | reflexivity ].
  rewrite !segments_loop_cons.
  rewrite (segment_of_with_words_ext fields _ _ Hwords). reflexivity.
Qed.

(** ** More on the engine *)

Lemma _get_model_Ok (self self1 : WhisperAudioTranscriber Model) (w w1 : World)
    (model : Model) :
  _get_model self w = (Ok model, self1, w1) ->
  _model self1 = TrueModel model
  /\ _model_size self1 = _model_size self
  /\ _language self1 = _language self
  /\ _device self1 = _device self
  /\ (self1 = self
      \/ (model_found self = None /\ self1 = set_model self model)).
Proof.
  unfold _get_model. destruct (model_found self) as [m |] eqn:Hmodel.
  - intros H. injection H as <- <- <-. repeat split; auto.
    unfold model_found in Hmodel.
    destruct (_model self); congruence.
  - destruct (import_whisper w) as [[e |] w']; [ discriminate | ].
    destruct (load_model (_model_size self) (device_argument self) w')
      as [[m | [msg |]] w2]; try discriminate.
    intros H. injection H as <- <- <-. repeat split; auto.
Qed.

Lemma _get_model_Raise (self self1 : WhisperAudioTranscriber Model) (w w1 : World)
    (e : exn) :
  _get_model self w = (Raise e, self1, w1) ->
  self1 = self /\ model_found self = None.
Proof.
  unfold _get_model.
  destruct (model_found self) as [m |] eqn:Hmodel; [ discriminate | ].
  destruct (import_whisper w) as [[e' |] w'].
  - intros H. injection H as _ <- _. auto.
  - destruct (load_model (_model_size self) (device_argument self) w')
      as [[m | [msg |]] w2]; try discriminate;
      intros H; injection H as _ <- _; auto.
Qed.

Lemma transcribe_unfold (self : WhisperAudioTranscriber Model)
    (audio_path : string) (w : World) :
  transcribe self audio_path w
  = match _get_model self w with
    | (Raise e, self1, w1) => (Raise e, self1, w1)
    | (Ok model, self1, w1) => transcribe_with model self1 audio_path w1
    end.
Proof.
  unfold transcribe, transcribe_with.
  destruct (_get_model self w) as [[[model | e] self1] w1]; reflexivity.
Qed.

(** X1.  With a true object given to the constructor as the model,
    [transcribe] goes straight to it: nothing is imported or loaded, and the
    model size and the device, whatever they are, change neither the outcome
    nor the world.  An object that is false is passed over by the test of
    line 75: the outcome and the world are those of a transcriber given no
    model. *)
Theorem supplied_model_used_as_is (size size' language device device' : option string)
    (m : Model) (audio_path : string) (w : World) :
  transcribe (__init__ size language (TrueModel m) device) audio_path w
  = transcribe_with m (__init__ size language (TrueModel m) device) audio_path w
  /\ fst (fst (transcribe (__init__ size language (TrueModel m) device)
                 audio_path w))
     = fst (fst (transcribe (__init__ size' language (TrueModel m) device')
                   audio_path w))
  /\ snd (transcribe (__init__ size language (TrueModel m) device) audio_path w)
     = snd (transcribe (__init__ size' language (TrueModel m) device')
              audio_path w)
  /\ fst (fst (transcribe (__init__ size language FalseModel device) audio_path w))
     = fst (fst (transcribe (__init__ size language NoModel device) audio_path w))
  /\ snd (transcribe (__init__ size language FalseModel device) audio_path w)
     = snd (transcribe (__init__ size language NoModel device) audio_path w).
Proof.
  rewrite !transcribe_unfold. unfold _get_model, transcribe_with.
  cbn [model_found __init__ _model _language].
  split; [ | split; [ | split ] ].
  - reflexivity.
  - destruct (model_transcribe m audio_path language w) as [[result | e] w2];
      reflexivity.
  - destruct (model_transcribe m audio_path language w) as [[result | e] w2];
      reflexivity.
  - destruct (import_whisper w) as [[e |] w1]; [ split; reflexivity | ].
    unfold device_argument. cbn [_model_size _device __init__].
    destruct (load_model _ _ w1) as [[m' | [msg |]] w2]; split; reflexivity.
Qed.

(** X2.  Once [_get_model] has returned a model, the transcriber it leaves
    returns that model again without importing or loading anything, and
    [transcribe] on it goes straight to the model. *)
Theorem loaded_model_reused (self self1 : WhisperAudioTranscriber Model)
    (w w1 : World) (model : Model) :
  _get_model self w = (Ok model, self1, w1) ->
  forall (audio_path : string) (w' : World),
    _get_model self1 w' = (Ok model, self1, w')
    /\ transcribe self1 audio_path w' = transcribe_with model self1 audio_path w'.
Proof.
  intros Hget audio_path w'.
  destruct (_get_model_Ok _ _ _ _ _ Hget) as (Hmodel & _).
  assert (Hagain : _get_model self1 w' = (Ok model, self1, w')).
  { unfold _get_model, model_found. rewrite Hmodel. reflexivity. }
  split; [ exact Hagain | ].
  rewrite transcribe_unfold, Hagain. reflexivity.
Qed.

(** X3.  When [_get_model] raises, whatever the failure, the transcriber is
    left as it was, with no model that line 75 would find: a failure is not
    remembered, and the next call starts from the import again. *)
Theorem failed_load_not_remembered (self self1 : WhisperAudioTranscriber Model)
    (w w1 : World) (e : exn) :
  _get_model self w = (Raise e, self1, w1) ->
  self1 = self
  /\ model_found self1 = None
  /\ forall w', _get_model self1 w' = _get_model self w'.
Proof.
  intros Hget. destruct (_get_model_Raise _ _ _ _ _ Hget) as [-> Hnone].
  repeat split. exact Hnone.
Qed.

(** X4.  Whatever [transcribe] does, it leaves the model size, the language
    and the device of the transcriber as they were, and a true model that
    was there stays.  The transcriber changes in one way only: where line 75
    found no model and the load succeeds, the loaded model is stored, in the
    place of [None] or of a false object. *)
Theorem transcribe_keeps_settings (self self1 : WhisperAudioTranscriber Model)
    (audio_path : string) (w w2 : World) (r : outcome Document) :
  transcribe self audio_path w = (r, self1, w2) ->
  _model_size self1 = _model_size self
  /\ _language self1 = _language self
  /\ _device self1 = _device self
  /\ (forall m, _model self = TrueModel m -> _model self1 = TrueModel m)
  /\ (self1 = self
      \/ exists m, model_found self = None /\ self1 = set_model self m).
Proof.
  rewrite transcribe_unfold.
  destruct (_get_model self w) as [[[model | e] self'] w1] eqn:Hget.
  - destruct (_get_model_Ok _ _ _ _ _ Hget) as (Hm & Hsize & Hlang & Hdev & Hsame).
    assert (Hself : self1 = self' -> _model_size self1 = _model_size self
              /\ _language self1 = _language self
              /\ _device self1 = _device self
              /\ (forall m, _model self = TrueModel m -> _model self1 = TrueModel m)
              /\ (self1 = self
                  \/ exists m, model_found self = None /\ self1 = set_model self m)).
    { intros ->. repeat split; auto.
      - intros m Hsome. destruct Hsame as [-> | [Hnone _]]; [ exact Hsome | ].
        unfold model_found in Hnone. rewrite Hsome in Hnone. discriminate.
      - destruct Hsame as [-> | [Hnone ->]]; [ left; reflexivity | ].
        right. exists model. auto. }
    unfold transcribe_with.
    destruct (model_transcribe model audio_path (_language self') w1)
      as [[result | e] w2'];
      intros H; injection H as _ <- _; apply Hself; reflexivity.
  - destruct (_get_model_Raise _ _ _ _ _ Hget) as [-> _].
    intros H. injection H as _ <- _. repeat split; auto.
Qed.

(** X5.  When the import of the package fails, [transcribe] raises what the
    import raised, as it is: the import stands before the [try], so there is
    no [RuntimeError], and nothing is loaded. *)
Theorem import_failure_unwrapped (self : WhisperAudioTranscriber Model)
    (w w1 : World) (e : engine_exn) :
  model_found self = None ->
  import_whisper w = (Some e, w1) ->
  forall audio_path,
    transcribe self audio_path w = (Raise (FromEngine e), self, w1).
Proof.
  intros Hnone Himport audio_path. rewrite transcribe_unfold.
  unfold _get_model. rewrite Hnone, Himport. reflexivity.
Qed.

(** X6.  An exception that is not an [Exception], raised while the model
    loads, passes the handler of line 89: [transcribe] raises it as it is. *)
Theorem interrupt_unwrapped (self : WhisperAudioTranscriber Model)
    (w w1 w2 : World) :
  model_found self = None ->
  import_whisper w = (None, w1) ->
  load_model (_model_size self) (device_argument self) w1
    = (inr EngineInterrupt, w2) ->
  forall audio_path,
    transcribe self audio_path w = (Raise (FromEngine EngineInterrupt), self, w2).
Proof.
  intros Hnone Himport Hload audio_path. rewrite transcribe_unfold.
  unfold _get_model. rewrite Hnone, Himport, Hload. reflexivity.
Qed.

(** X7.  The [RuntimeError] of a failed load begins with
    [Error loading Whisper model], holds the message of the exception that
    caused it, and prints a device that was not given as [None]. *)
Theorem load_error_keeps_cause (self : WhisperAudioTranscriber Model)
    (w w1 w2 : World) (msg : string) :
  model_found self = None ->
  import_whisper w = (None, w1) ->
  load_model (_model_size self) (device_argument self) w1
    = (inr (EngineException msg), w2) ->
  exists message,
    _get_model self w = (Raise (RuntimeError message), self, w2)
    /\ (exists rest,
          message = ("Error loading Whisper model (size: " ++ rest)%string)
    /\ contains msg message
    /\ (_device self = None -> contains "device: None" message).
Proof.
  intros Hnone Himport Hload. exists (load_error_message self msg).
  split; [ | split; [ | split ] ].
  - unfold _get_model. rewrite Hnone, Himport, Hload. reflexivity.
  - unfold load_error_message. eexists. reflexivity.
  - unfold contains, load_error_message.
    exists ("Error loading Whisper model (size: " ++ _model_size self
            ++ ", device: " ++ format_device (_device self) ++ "): ")%string.
    eexists. rewrite !append_assoc. reflexivity.
  - intros Hdev. unfold contains, load_error_message. rewrite Hdev.
    exists ("Error loading Whisper model (size: " ++ _model_size self ++ ", ")%string.
    eexists. rewrite !append_assoc. reflexivity.
Qed.

(** X8.  A device that is the empty string counts as no device: the model
    is loaded as [whisper.load_model(size)], with the device left to the
    package. *)
Theorem empty_device_auto_detected (self : WhisperAudioTranscriber Model)
    (w w1 w2 : World) (m : Model) :
  model_found self = None ->
  _device self = Some EmptyString ->
  import_whisper w = (None, w1) ->
  load_model (_model_size self) None w1 = (inl m, w2) ->
  _get_model self w = (Ok m, set_model self m, w2).
Proof.
  intros Hnone Hdev Himport Hload. unfold _get_model, device_argument.
  rewrite Hnone, Himport, Hdev. cbn. rewrite Hload. reflexivity.
Qed.

(** X9.  What the model raises on the audio goes to the caller as it is,
    and the model that was loaded for the call stays in the transcriber. *)
Theorem engine_failure_propagates (self self1 : WhisperAudioTranscriber Model)
    (audio_path : string) (w w1 w2 : World) (model : Model) (e : engine_exn) :
  _get_model self w = (Ok model, self1, w1) ->
  model_transcribe model audio_path (_language self1) w1 = (inr e, w2) ->
  transcribe self audio_path w = (Raise (FromEngine e), self1, w2)
  /\ _model self1 = TrueModel model.
Proof.
  intros Hget Hengine. split.
  - rewrite transcribe_unfold, Hget. unfold transcribe_with.
    rewrite Hengine. reflexivity.
  - apply (_get_model_Ok _ _ _ _ _ Hget).
Qed.

(** ** More on the normalizer *)

Lemma normalize_raw_result_any (segment_infos : list pyval) :
  normalize (raw_result segment_infos)
  = (doc_segments <- segments_loop segment_infos [] ;;
     Ok {| segments := doc_segments |}).
Proof.
  destruct segment_infos; reflexivity.
Qed.

Lemma normalize_raw_result_Ok (segment_infos : list pyval) (document : Document) :
  normalize (raw_result segment_infos) = Ok document ->
  segments_loop segment_infos [] = Ok (segments document).
Proof.
  rewrite normalize_raw_result_any. intros H.
  apply bind_Ok in H. destruct H as (segs & Hloop & H).
  injection H as <-. exact Hloop.
Qed.

(** X10.  Any false value of [segments] ([None], zero, an empty string, list
    or dict) gives the empty document, like a missing key. *)
Theorem false_segments_empty_document (result : dict) (segs : pyval) :
  dict_get "segments" result = Some segs ->
  truthy segs = false ->
  normalize result = Ok {| segments := [] |}.
Proof.
  intros Hsegs Hfalse. unfold normalize, dict_contains.
  rewrite Hsegs, Hfalse. reflexivity.
Qed.

(** X11.  A true value of [segments] that is not a list (a number, a
    string, a dict) makes [transcribe] raise a [TypeError]: either it cannot
    be iterated, or its elements are strings, which have no [start]. *)
Theorem non_list_segments_raise (result : dict) (segs : pyval) :
  dict_get "segments" result = Some segs ->
  truthy segs = true ->
  is_list segs = false ->
  normalize result = Raise TypeError.
Proof.
  intros Hsegs Htrue Hlist. unfold normalize, dict_contains, dict_getitem.
  rewrite Hsegs, Htrue. simpl.
  destruct segs as [ | | | | s | l | d]; try reflexivity; try discriminate.
  - destruct s; [ discriminate | reflexivity ].
  - destruct d; [ discriminate | reflexivity ].
Qed.

(** X12.  The first segment record that fails ends the call with its error:
    the segments built before it are lost and the records after it are not
    looked at. *)
Theorem first_bad_record_aborts (before after : list pyval) (bad : pyval) (e : exn) :
  forallb sound_segment before = true ->
  segment_of_info bad = Raise e ->
  normalize (raw_result (before ++ bad :: after)) = Raise e.
Proof.
  intros Hsound Hbad. rewrite normalize_raw_result_any, segments_loop_app.
  pose proof (segments_loop_sound before []) as Hok. rewrite Hsound in Hok.
  destruct (segments_loop before []) as [segs | ex]; [ | discriminate ].
  cbn [bind]. rewrite segments_loop_cons, Hbad. reflexivity.
Qed.

(** X13.  The document of two lists of segment records put end to end is
    the document of the first followed by the document of the second. *)
Theorem normalize_app (a b : list pyval) (da db : Document) :
  normalize (raw_result a) = Ok da ->
  normalize (raw_result b) = Ok db ->
  normalize (raw_result (a ++ b)) = Ok {| segments := segments da ++ segments db |}.
Proof.
  intros Ha Hb. apply normalize_raw_result_Ok in Ha, Hb.
  rewrite normalize_raw_result_any, segments_loop_app, Ha. cbn [bind].
  rewrite segments_loop_acc, Hb. reflexivity.
Qed.

Lemma word_of_entry_alike (word_entry word_entry' : pyval) :
  word_alike word_entry word_entry' ->
  word_of_entry word_entry = word_of_entry word_entry'.
Proof.
  unfold word_alike.
  destruct word_entry, word_entry'; intros H; try discriminate;
    try (injection H as ->); try reflexivity.
  unfold word_of_entry, getitem, dict_getitem.
  rewrite (H "word"), (H "start"), (H "end"); simpl; auto.
Qed.

Lemma words_loop_alike (ws ws' : list pyval) :
  Forall2 word_alike ws ws' ->
  forall acc, words_loop ws acc = words_loop ws' acc.
Proof.
  induction 1 as [| e e' ws ws' He _ IH]; intros acc; [ reflexivity | ].
  rewrite !words_loop_cons, (word_of_entry_alike _ _ He).
  destruct (word_of_entry e') as [r | ex]; cbn [bind]; [ apply IH | reflexivity ].
Qed.

Lemma segment_of_info_alike (segment_info segment_info' : pyval) :
  segment_alike segment_info segment_info' ->
  segment_of_info segment_info = segment_of_info segment_info'.
Proof.
  unfold segment_alike.
  destruct segment_info as [ | | | | | | d], segment_info' as [ | | | | | | d'];
    intros H; try discriminate; try (injection H as ->); try reflexivity.
  destruct H as [Hspan Hwords].
  unfold segment_of_info, segment_of_dict, dict_getitem, dict_contains.
  rewrite (Hspan "start"), (Hspan "end") by (simpl; auto).
  destruct (dict_get "start" d') as [vs |]; simpl; [ | reflexivity ].
  destruct (py_float vs) as [fs | ex]; simpl; [ | reflexivity ].
  destruct (dict_get "end" d') as [ve |]; simpl; [ | reflexivity ].
  destruct (py_float ve) as [fe | ex]; simpl; [ | reflexivity ].
  unfold usable_words, dict_contains in Hwords.
  destruct (dict_get "words" d) as [[ | | | | | ws | ] |],
           (dict_get "words" d') as [[ | | | | | ws' | ] |];
    simpl in Hwords |- *;
    try (destruct Hwords as (H1 & H2 & Htext); try discriminate;
         destruct (dict_get "text" d), (dict_get "text" d');
         try discriminate; reflexivity).
  rewrite (words_loop_alike _ _ Hwords). reflexivity.
Qed.

(** X14.  A segment record is read by its [start], [end], [words] and
    [text] only, and a word record by its [word], [start] and [end]; the
    value of [text] is not looked at, only whether it is there, and that only
    where there is no list of words.  Two results that are alike there give
    the same document, or the same error. *)
Theorem records_read_by_name (segment_infos segment_infos' : list pyval) :
  Forall2 segment_alike segment_infos segment_infos' ->
  normalize (raw_result segment_infos) = normalize (raw_result segment_infos').
Proof.
  intros H. rewrite !normalize_raw_result_any.
  assert (Hloop : forall acc,
             segments_loop segment_infos acc = segments_loop segment_infos' acc).
  { induction H as [| i i' l l' Hi _ IH]; intros acc; [ reflexivity | ].
    rewrite !segments_loop_cons, (segment_of_info_alike _ _ Hi).
    destruct (segment_of_info i') as [r | ex]; cbn [bind];
      [ apply IH | reflexivity ]. }
  rewrite Hloop. reflexivity.
Qed.

Lemma span_passed_through (s e : float) : passed_through s e (span s e).
Proof.
  unfold passed_through, span.
  destruct (PrimFloat.eqb s e); simpl; split; auto; discriminate.
Qed.

(** X15.  The start of a record is never changed, and its end only where it
    equals the start: every other span, also one that ends before it starts
    or holds a number that is not a number, is in the document as it
    stands. *)
Theorem spans_passed_through (result : dict) (document : Document) :
  normalize result = Ok document ->
  Forall2 (times_from passed_through) (kept_segments result) (segments document).
Proof.
  intros Hnorm.
  apply (normalize_times passed_through (fun _ _ => true) result document);
    [ | exact Hnorm | apply all_spans_true ].
  intros s e _. apply span_passed_through.
Qed.

(** X16.  The document has no more segments than the result has segment
    records, and a segment no more words than its record has word records. *)
Theorem document_no_larger (result : dict) (document : Document) :
  normalize result = Ok document ->
  List.length (segments document) <= List.length (segment_records result)
  /\ Forall2 (fun segment_info segment =>
                List.length (segment_words segment)
                <= List.length (word_records segment_info))
             (kept_segments result) (segments document).
Proof.
  intros Hnorm. apply normalize_Ok in Hnorm. split.
  - rewrite <- (Forall2_length Hnorm). unfold kept_segments.
    apply filter_length_le.
  - apply (Forall2_impl_In _ _ _ _ _ _ Hnorm).
    intros segment_info segment _ (s & e & ws & _ & -> & Hws).
    unfold segment_words; simpl. rewrite app_nil_r.
    rewrite <- (Forall2_length Hws). unfold kept_words.
    apply filter_length_le.
Qed.

(** Finds the error among the alternatives of [builtin_error]. *)
Ltac pick_error :=
  unfold builtin_error;
  repeat first [ reflexivity | left; reflexivity | right ].

Lemma py_float_Raise (v : pyval) (e : exn) :
  py_float v = Raise e -> builtin_error e.
Proof.
  unfold py_float, float_of_int.
  destruct v as [ | b | z | f | s | l | d]; try discriminate;
    try (intros H; injection H as <-; pick_error).
  - destruct (binary_normalize prec emax z 0 false); try discriminate.
    intros H; injection H as <-; pick_error.
  - destruct (float_of_str s); [ discriminate | ].
    intros H; injection H as <-; pick_error.
Qed.

Lemma word_of_entry_Raise (word_entry : pyval) (e : exn) :
  word_of_entry word_entry = Raise e -> builtin_error e.
Proof.
  unfold word_of_entry.
  destruct word_entry as [ | | | | | | d]; simpl;
    try (intros H; injection H as <-; pick_error).
  unfold dict_getitem.
  destruct (dict_get "word" d) as [w |]; simpl;
    [ | intros H; injection H as <-; pick_error ].
  destruct (String.eqb (strip (py_str w)) EmptyString); [ discriminate | ].
  destruct (dict_get "start" d) as [vs |]; simpl;
    [ | intros H; injection H as <-; pick_error ].
  destruct (py_float vs) as [fs | ex] eqn:Hs; simpl;
    [ | intros H; injection H as <-; exact (py_float_Raise _ _ Hs) ].
  destruct (dict_get "end" d) as [ve |]; simpl;
    [ | intros H; injection H as <-; pick_error ].
  destruct (py_float ve) as [fe | ex] eqn:He; simpl;
    [ discriminate | intros H; injection H as <-; exact (py_float_Raise _ _ He) ].
Qed.

Lemma words_loop_Raise (word_entries : list pyval) (acc : list Word) (e : exn) :
  words_loop word_entries acc = Raise e -> builtin_error e.
Proof.
  revert acc. induction word_entries as [| word_entry rest IH]; intros acc;
    [ discriminate | ].
  rewrite words_loop_cons.
  destruct (word_of_entry word_entry) as [r | ex] eqn:Hword; cbn [bind].
  - apply IH.
  - intros H; injection H as <-. exact (word_of_entry_Raise _ _ Hword).
Qed.

Lemma segment_of_info_Raise (segment_info : pyval) (e : exn) :
  segment_of_info segment_info = Raise e -> builtin_error e.
Proof.
  unfold segment_of_info.
  destruct segment_info as [ | | | | | | d];
    try (intros H; injection H as <-; pick_error).
  unfold segment_of_dict, dict_getitem, dict_contains.
  destruct (dict_get "start" d) as [vs |]; simpl;
    [ | intros H; injection H as <-; pick_error ].
  destruct (py_float vs) as [fs | ex] eqn:Hs; simpl;
    [ | intros H; injection H as <-; exact (py_float_Raise _ _ Hs) ].
  destruct (dict_get "end" d) as [ve |]; simpl;
    [ | intros H; injection H as <-; pick_error ].
  destruct (py_float ve) as [fe | ex] eqn:He; simpl;
    [ | intros H; injection H as <-; exact (py_float_Raise _ _ He) ].
  destruct (dict_get "words" d) as [[ | | | | | ws | ] |]; simpl;
    try (destruct (dict_get "text" d); simpl;
         [ discriminate
         | intros H; injection H as <-; pick_error ]).
  destruct (words_loop ws []) as [line_words | ex] eqn:Hloop; simpl;
    [ discriminate | ].
  intros H; injection H as <-. exact (words_loop_Raise _ _ _ Hloop).
Qed.

Lemma segments_loop_Raise (segment_infos : list pyval) (acc : list Segment)
    (e : exn) :
  segments_loop segment_infos acc = Raise e -> builtin_error e.
Proof.
  revert acc. induction segment_infos as [| segment_info rest IH]; intros acc;
    [ discriminate | ].
  rewrite segments_loop_cons.
  destruct (segment_of_info segment_info) as [r | ex] eqn:Hseg; cbn [bind].
  - apply IH.
  - intros H; injection H as <-. exact (segment_of_info_Raise _ _ Hseg).
Qed.

(** X17.  What the normalizer raises on a raw result is a [KeyError] for
    [start], [end], [text] or [word], a [TypeError], a [ValueError] or an
    [OverflowError]: never a [RuntimeError], and nothing of the engine's. *)
Theorem normalize_raises_only (result : dict) (e : exn) :
  normalize result = Raise e -> builtin_error e.
Proof.
  unfold normalize, dict_contains, dict_getitem.
  destruct (dict_get "segments" result) as [segs |]; simpl; [ | discriminate ].
  destruct (truthy segs); simpl; [ | discriminate ].
  destruct (iterate segs) as [segment_infos | ex] eqn:Hiter; simpl.
  - destruct (segments_loop segment_infos []) as [doc_segments | ex] eqn:Hloop;
      simpl; [ discriminate | ].
    intros H; injection H as <-. exact (segments_loop_Raise _ _ _ Hloop).
  - intros H; injection H as <-.
    destruct segs; try discriminate; injection Hiter as <-;
      pick_error.
Qed.

End Transcriber.

(** ** The theorems at the examples *)

(** Scenario 2 of the spec: a segment and a word of zero length, both moved
    to end at 1.01, and the word trimmed. *)
Example scenario2_normalized :
  forall float_of_str str_of_object,
    normalize float_of_str str_of_object scenario2 = Ok scenario2_document.
Proof.
  intros. reflexivity.
Qed.

(** Scenario 4: the blank word record is dropped, the words around it stay
    in order. *)
Example scenario4_normalized :
  forall float_of_str str_of_object,
    normalize float_of_str str_of_object scenario4 = Ok scenario4_document.
Proof.
  intros. reflexivity.
Qed.

(** Scenarios 1 and 5: no segment, the empty document. *)
Example scenario1_and_5_normalized :
  forall float_of_str str_of_object,
    normalize float_of_str str_of_object (raw_result []) = Ok {| segments := [] |}
    /\ normalize float_of_str str_of_object scenario5 = Ok {| segments := [] |}.
Proof.
  intros. split; reflexivity.
Qed.

(** C1, as stated, fails at scenario 3: one segment record, without
    [words], and a document with no segment. *)
Lemma wordless_segment_dropped :
  List.length (segment_records scenario3) = 1
  /\ (forall float_of_str str_of_object,
        normalize float_of_str str_of_object scenario3 = Ok {| segments := [] |}).
Proof.
  split; [ reflexivity | intros; reflexivity ].
Qed.

(** At scenario 4: one record with a list of words, one segment. *)
Lemma segments_follow_records_with_words_witness :
  List.length (segments scenario4_document) = List.length (kept_segments scenario4)
  /\ Forall2 (segment_from example_float_of_str example_str_of_object)
             (kept_segments scenario4) (segments scenario4_document).
Proof.
  apply (segments_follow_records_with_words
           example_float_of_str example_str_of_object scenario4 scenario4_document).
  reflexivity.
Defined.

(** C2, as stated, fails: a segment record without [start], one whose
    [start] is [None], one with neither [words] nor [text], and a word record
    without [word] each make [transcribe] raise. *)
Lemma malformed_records_raise :
  (forall float_of_str str_of_object,
      normalize float_of_str str_of_object missing_start = Raise (KeyError "start"))
  /\ (forall float_of_str str_of_object,
        normalize float_of_str str_of_object none_start = Raise TypeError)
  /\ (forall float_of_str str_of_object,
        normalize float_of_str str_of_object missing_text = Raise (KeyError "text"))
  /\ (forall float_of_str str_of_object,
        normalize float_of_str str_of_object missing_word = Raise (KeyError "word")).
Proof.
  repeat split; intros; reflexivity.
Qed.

(** Scenario 3 is sound: it has a [text] where it has no [words]. *)
Lemma normalize_returns_iff_sound_witness :
  exists document,
    normalize example_float_of_str example_str_of_object scenario3 = Ok document.
Proof.
  apply (proj1 (normalize_returns_iff_sound
                  example_float_of_str example_str_of_object scenario3)).
  reflexivity.
Defined.

(** C3, as stated, fails: a span that ends before it starts is kept as it
    is, and a span of zero length at ten to the sixteen seconds stays of zero
    length, since adding [0.01] there gives the start back. *)
Lemma reversed_and_late_spans_not_increasing :
  (forall float_of_str str_of_object,
      normalize float_of_str str_of_object reversed_span
      = Ok (one_segment {| start := 2; end_ := 1 |} []))
  /\ forallb increasing (fragments (one_segment {| start := 2; end_ := 1 |} [])) = false
  /\ (forall float_of_str str_of_object,
        normalize float_of_str str_of_object late_span
        = Ok (one_segment {| start := 1e16; end_ := 1e16 |} []))
  /\ forallb increasing (fragments (one_segment {| start := 1e16; end_ := 1e16 |} []))
     = false.
Proof.
  repeat split; intros; reflexivity.
Qed.

(** At scenario 2, whose spans of zero length start at one second. *)
Lemma fragments_increasing_witness :
  forallb increasing (fragments scenario2_document) = true.
Proof.
  apply (fragments_increasing
           example_float_of_str example_str_of_object scenario2 scenario2_document);
    reflexivity.
Defined.

(** At scenario 2: the segment, its line and its word end at 1.01. *)
Lemma degenerate_spans_corrected_witness :
  (forall s e, corrected s e (span s e))
  /\ Forall2 (times_from example_float_of_str example_str_of_object corrected)
             (kept_segments scenario2) (segments scenario2_document).
Proof.
  apply (degenerate_spans_corrected
           example_float_of_str example_str_of_object scenario2 scenario2_document).
  reflexivity.
Defined.

(** At scenario 4: the words [a] and [b], the blank record between them gone. *)
Lemma words_trimmed_nonblank_witness :
  Forall (fun segment =>
            Forall (fun word => strip (text word) = text word
                                /\ 1 <= String.length (strip (text word)))
                   (segment_words segment))
         (segments scenario4_document)
  /\ Forall2 (fun segment_info segment =>
                Forall2 (fun word_entry word =>
                           word_text example_str_of_object word_entry
                           = Some (text word))
                        (kept_words example_str_of_object segment_info)
                        (segment_words segment))
             (kept_segments scenario4) (segments scenario4_document).
Proof.
  apply (words_trimmed_nonblank
           example_float_of_str example_str_of_object scenario4 scenario4_document).
  reflexivity.
Defined.

(** At scenario 5, the result with no key. *)
Lemma no_segments_empty_document_witness :
  normalize example_float_of_str example_str_of_object scenario5
  = Ok {| segments := [] |}.
Proof.
  apply (no_segments_empty_document
           example_float_of_str example_str_of_object scenario5).
  left. reflexivity.
Defined.

(** At a result whose spans all have the start below the end. *)
Lemma ordered_spans_unchanged_witness :
  Forall2 (times_from example_float_of_str example_str_of_object unchanged)
          (kept_segments ordered_result) (segments scenario4_document).
Proof.
  apply (ordered_spans_unchanged
           example_float_of_str example_str_of_object ordered_result
           scenario4_document); reflexivity.
Defined.

(** At scenario 4: one line, with the two words in order. *)
Lemma one_line_per_segment_witness :
  Forall (fun segment =>
            exists line,
              lines segment = [line] /\ line_time line = segment_time segment)
         (segments scenario4_document)
  /\ Forall2 (fun segment_info segment =>
                exists line,
                  lines segment = [line]
                  /\ Forall2 (word_from example_float_of_str example_str_of_object)
                             (kept_words example_str_of_object segment_info)
                             (words line))
             (kept_segments scenario4) (segments scenario4_document).
Proof.
  apply (one_line_per_segment
           example_float_of_str example_str_of_object scenario4 scenario4_document).
  reflexivity.
Defined.

(** C9, as stated, fails: with the package not installed the import of
    line 78, which stands before the [try], raises its own error, and an
    interrupt while the model loads passes the handler of line 89; neither is
    a [RuntimeError], and the message of the first names neither the size
    [base] nor the device [cuda] of the transcriber. *)
Lemma failure_without_size_or_device :
  _get_model nat unit example_import_fails example_load_ok example_self 0
  = (Raise (FromEngine (EngineException "No module named whisper")),
     example_self, 0)
  /\ ~ contains (_model_size example_self) "No module named whisper"
  /\ ~ contains (format_device (_device example_self)) "No module named whisper"
  /\ _get_model nat unit example_import example_load_interrupted example_self 0
     = (Raise (FromEngine EngineInterrupt), example_self, 1).
Proof.
  split; [ reflexivity | ]. split; [ | split; [ | reflexivity ] ].
  - intros (before & after & H). simpl in H.
    repeat (destruct before as [| ? before]; simpl in H;
            [ discriminate | injection H as _ H ]).
    destruct before; simpl in H; discriminate.
  - intros (before & after & H). simpl in H.
    repeat (destruct before as [| ? before]; simpl in H;
            [ discriminate | injection H as _ H ]).
    destruct before; simpl in H; discriminate.
Qed.

(** With the engine of the examples: one call of [load_model], and an error
    that names [base] and [cuda]. *)
Lemma load_failure_raises_witness :
  exists message,
    _get_model nat unit example_import example_load_model example_self 0
    = (Raise (RuntimeError message), example_self, 1)
    /\ contains "base" message
    /\ contains "cuda" message
    /\ forall audio_path,
         transcribe example_float_of_str example_str_of_object nat unit
           example_import example_load_model example_model_transcribe
           example_self audio_path 0
         = (Raise (RuntimeError message), example_self, 1).
Proof.
  apply (load_failure_raises
           example_float_of_str example_str_of_object nat unit
           example_import example_load_model example_model_transcribe
           example_self 0 0 1 "no CUDA device"); reflexivity.
Defined.

(** At a blank word record that has no [start] and no [end]. *)
Lemma blank_word_skipped_unread_witness :
  word_of_entry example_float_of_str example_str_of_object (PDict untimed_blank)
  = Ok None
  /\ forall (before after : list pyval) (fields : dict) (pre post : list pyval),
       normalize example_float_of_str example_str_of_object
         (raw_result
            (before ++ with_words fields (pre ++ PDict untimed_blank :: post) :: after))
       = normalize example_float_of_str example_str_of_object
           (raw_result (before ++ with_words fields (pre ++ post) :: after)).
Proof.
  apply (blank_word_skipped_unread
           example_float_of_str example_str_of_object untimed_blank (PStr "   "));
    reflexivity.
Defined.

(** ** The further theorems at the examples *)

(** With the engine that loads: the transcriber left by the first call
    answers from its model, in any later world. *)
Lemma loaded_model_reused_witness :
  _get_model nat unit example_import example_load_ok example_self_loaded 5
  = (Ok tt, example_self_loaded, 5)
  /\ transcribe example_float_of_str example_str_of_object nat unit
       example_import example_load_ok example_model_transcribe
       example_self_loaded "talk.mp3" 5
     = transcribe_with example_float_of_str example_str_of_object nat unit
         example_model_transcribe tt example_self_loaded "talk.mp3" 5.
Proof.
  exact (loaded_model_reused example_float_of_str example_str_of_object nat unit
           example_import example_load_ok example_model_transcribe
           example_self example_self_loaded 0 1 tt eq_refl "talk.mp3" 5).
Defined.

(** With the engine that finds no device: the transcriber is as before. *)
Lemma failed_load_not_remembered_witness :
  example_self = example_self
  /\ model_found example_self = None
  /\ forall w',
       _get_model nat unit example_import example_load_model example_self w'
       = _get_model nat unit example_import example_load_model example_self w'.
Proof.
  exact (failed_load_not_remembered nat unit example_import example_load_model
           example_self example_self 0 1
           (RuntimeError (load_error_message unit example_self "no CUDA device"))
           eq_refl).
Defined.

(** With the engine that loads: the call that loads the model changes no
    setting. *)
Lemma transcribe_keeps_settings_witness :
  _model_size example_self_loaded = _model_size example_self
  /\ _language example_self_loaded = _language example_self
  /\ _device example_self_loaded = _device example_self
  /\ (forall m, _model example_self = TrueModel m ->
                _model example_self_loaded = TrueModel m)
  /\ (example_self_loaded = example_self
      \/ exists m, model_found example_self = None
                   /\ example_self_loaded = set_model unit example_self m).
Proof.
  exact (transcribe_keeps_settings example_float_of_str example_str_of_object
           nat unit example_import example_load_ok example_model_transcribe
           example_self example_self_loaded "talk.mp3" 0 1
           (Ok scenario2_document) eq_refl).
Defined.

(** With the package not installed. *)
Lemma import_failure_unwrapped_witness :
  transcribe example_float_of_str example_str_of_object nat unit
    example_import_fails example_load_ok example_model_transcribe
    example_self "talk.mp3" 0
  = (Raise (FromEngine (EngineException "No module named whisper")),
     example_self, 0).
Proof.
  exact (import_failure_unwrapped example_float_of_str example_str_of_object
           nat unit example_import_fails example_load_ok example_model_transcribe
           example_self 0 0 (EngineException "No module named whisper")
           eq_refl eq_refl "talk.mp3").
Defined.

(** With the load interrupted. *)
Lemma interrupt_unwrapped_witness :
  transcribe example_float_of_str example_str_of_object nat unit
    example_import example_load_interrupted example_model_transcribe
    example_self "talk.mp3" 0
  = (Raise (FromEngine EngineInterrupt), example_self, 1).
Proof.
  exact (interrupt_unwrapped example_float_of_str example_str_of_object
           nat unit example_import example_load_interrupted
           example_model_transcribe example_self 0 0 1
           eq_refl eq_refl eq_refl "talk.mp3").
Defined.

(** With the constructor's defaults and the engine that finds no device:
    the message names the cause and the device [None]. *)
Lemma load_error_keeps_cause_witness :
  exists message,
    _get_model nat unit example_import example_load_model
      (__init__ unit None None NoModel None) 0
    = (Raise (RuntimeError message), __init__ unit None None NoModel None, 1)
    /\ (exists rest,
          message = ("Error loading Whisper model (size: " ++ rest)%string)
    /\ contains "no CUDA device" message
    /\ (_device (__init__ unit None None NoModel None) = None ->
        contains "device: None" message).
Proof.
  exact (load_error_keeps_cause nat unit example_import example_load_model
           (__init__ unit None None NoModel None) 0 0 1 "no CUDA device"
           eq_refl eq_refl eq_refl).
Defined.

(** With an empty device and the engine that loads. *)
Lemma empty_device_auto_detected_witness :
  _get_model nat unit example_import example_load_ok example_self_no_device 0
  = (Ok tt, set_model unit example_self_no_device tt, 1).
Proof.
  exact (empty_device_auto_detected nat unit example_import example_load_ok
           example_self_no_device 0 0 1 tt eq_refl eq_refl eq_refl eq_refl).
Defined.

(** With a model that fails on the audio: the error is the model's, and
    the model loaded for the call is kept. *)
Lemma engine_failure_propagates_witness :
  transcribe example_float_of_str example_str_of_object nat unit
    example_import example_load_ok example_transcribe_fails
    example_self "talk.mp3" 0
  = (Raise (FromEngine (EngineException "ffmpeg not found")),
     example_self_loaded, 1)
  /\ _model example_self_loaded = TrueModel tt.
Proof.
  exact (engine_failure_propagates example_float_of_str example_str_of_object
           nat unit example_import example_load_ok example_transcribe_fails
           example_self example_self_loaded "talk.mp3" 0 1 1 tt
           (EngineException "ffmpeg not found") eq_refl eq_refl).
Defined.

(** At a result whose [segments] is [None]. *)
Lemma false_segments_empty_document_witness :
  normalize example_float_of_str example_str_of_object [("segments", PNone)]
  = Ok {| segments := [] |}.
Proof.
  exact (false_segments_empty_document example_float_of_str example_str_of_object
           [("segments", PNone)] PNone eq_refl eq_refl).
Defined.

(** At a result whose [segments] is a string. *)
Lemma non_list_segments_raise_witness :
  normalize example_float_of_str example_str_of_object [("segments", PStr "abc")]
  = Raise TypeError.
Proof.
  exact (non_list_segments_raise example_float_of_str example_str_of_object
           [("segments", PStr "abc")] (PStr "abc") eq_refl eq_refl eq_refl).
Defined.

(** At three records: a sound one, a string, and an empty dict that is
    never reached. *)
Lemma first_bad_record_aborts_witness :
  normalize example_float_of_str example_str_of_object
    (raw_result
       ([with_words [("start", PFloat 0); ("end", PFloat 1)] []]
          ++ PStr "oops" :: [PDict []]))
  = Raise TypeError.
Proof.
  exact (first_bad_record_aborts example_float_of_str example_str_of_object
           [with_words [("start", PFloat 0); ("end", PFloat 1)] []] [PDict []]
           (PStr "oops") TypeError eq_refl eq_refl).
Defined.

(** At the records of scenario 2 followed by those of scenario 4. *)
Lemma normalize_app_witness :
  normalize example_float_of_str example_str_of_object
    (raw_result (segment_records scenario2 ++ segment_records scenario4))
  = Ok {| segments := segments scenario2_document ++ segments scenario4_document |}.
Proof.
  exact (normalize_app example_float_of_str example_str_of_object
           (segment_records scenario2) (segment_records scenario4)
           scenario2_document scenario4_document eq_refl eq_refl).
Defined.

Lemma whisper_segment_alike :
  Forall2 segment_alike [whisper_segment] (segment_records ordered_result).
Proof.
  repeat constructor;
    intros key Hkey; simpl in Hkey;
    repeat (destruct Hkey as [<- | Hkey]; [ reflexivity | ]);
    contradiction.
Defined.

(** At a segment record with the keys Whisper adds ([id], [tokens],
    [probability] and others) and another [text]: the document is that of the
    record without them. *)
Lemma records_read_by_name_witness :
  normalize example_float_of_str example_str_of_object (raw_result [whisper_segment])
  = normalize example_float_of_str example_str_of_object
      (raw_result (segment_records ordered_result)).
Proof.
  exact (records_read_by_name example_float_of_str example_str_of_object
           [whisper_segment] (segment_records ordered_result)
           whisper_segment_alike).
Defined.

(** At the record that ends before it starts: the fragment runs from 2 to 1. *)
Lemma spans_passed_through_witness :
  Forall2 (times_from example_float_of_str example_str_of_object passed_through)
          (kept_segments reversed_span)
          (segments (one_segment {| start := 2; end_ := 1 |} [])).
Proof.
  exact (spans_passed_through example_float_of_str example_str_of_object
           reversed_span (one_segment {| start := 2; end_ := 1 |} []) eq_refl).
Defined.

(** At scenario 4: one segment for one record, two words for three word
    records. *)
Lemma document_no_larger_witness :
  List.length (segments scenario4_document)
  <= List.length (segment_records scenario4)
  /\ Forall2 (fun segment_info segment =>
                List.length (segment_words segment)
                <= List.length (word_records segment_info))
             (kept_segments scenario4) (segments scenario4_document).
Proof.
  exact (document_no_larger example_float_of_str example_str_of_object
           scenario4 scenario4_document eq_refl).
Defined.

(** At the record with no [start]. *)
Lemma normalize_raises_only_witness : builtin_error (KeyError "start").
Proof.
  exact (normalize_raises_only example_float_of_str example_str_of_object
           missing_start (KeyError "start") eq_refl).
Defined.

(** With the engine that loads and returns scenario 2. *)
Lemma transcribe_Ok_witness :
  exists model w1 result,
    _get_model nat unit example_import example_load_ok example_self 0
    = (Ok model, example_self_loaded, w1)
    /\ example_model_transcribe model "talk.mp3" (_language example_self_loaded) w1
       = (inl result, 1)
    /\ normalize example_float_of_str example_str_of_object result
       = Ok scenario2_document.
Proof.
  exact (transcribe_Ok example_float_of_str example_str_of_object nat unit
           example_import example_load_ok example_model_transcribe
           example_self example_self_loaded "talk.mp3" 0 1 scenario2_document
           eq_refl).
Defined.
